(** * Presence / messaging relay, friends router and song routes

    A shallow embedding of
      - [spotify_backend/socketManager.js] (the socket.io relay),
      - the friends router (request, accept, decline, recommend,
        share-playlist, list, requests), and
      - the song routes that write (create, like, unlike, delete) with
        is-liked,
    together with the properties the specification states about them and
    further properties read off the code.

    Modelling conventions.
      - An ObjectId is represented by its hexadecimal string, so that
        [toString] is the identity; a socket id is a string.  In the like
        and unlike routes the song id of the request is a string that
        mongoose casts where it enters a query or an update, and that the
        route compares as it was sent: there the cast is explicit
        ([castId]).
      - A field of an inbound payload is [option string]: [None] is
        JavaScript's [undefined] (field missing).  The payload itself is
        optional as well (a client may emit an event without argument).
      - The database (mongoose) and the wall clock are outside the
        repository.  Every awaited database call consults the oracle
        [faults] at the index [dbCalls] and rejects when it answers [true];
        every [new Date()] reads the oracle [clock] at the index [ticks].
      - A handler runs to completion: interleaving of other handlers at the
        suspension points of an [await] is not modelled. *)

From Stdlib Require Import ZArith.
From stdpp Require Import gmap strings list.

Open Scope string_scope.
Open Scope list_scope.
Open Scope Z_scope.

(** ** Data model *)

(** [models/User.js]: the fields of the schema that the relay and the
    friends router read or write. *)
Record UserDoc := {
  username : string;
  firstName : string;
  lastName : string;
  profilePicture : string;
  friends : list string;
  currentlyPlaying : option (option string * Z);
  isOnline : bool;
  lastSeen : Z
}.

(** The display fields selected by
    [populate("sender", "username firstName lastName profilePicture")]. *)
Record SenderInfo := {
  si_id : string;
  si_username : string;
  si_firstName : string;
  si_lastName : string;
  si_profilePicture : string
}.

(** The [sender] path of a message document: an id until [populate] ran,
    afterwards the selected sub-document ([null] when no such user). *)
Inductive SenderRef :=
  | SenderId (id : string)
  | SenderPopulated (info : option SenderInfo).

(** Modelled from the spec: [models/ChatMessage.js] is not part of the
    sources; a message record is "sender identifier, recipient identifier,
    content, creation timestamp". *)
Record ChatMessage := {
  sender : SenderRef;
  receiver : option string;
  content : option string;
  createdAt : Z
}.

Inductive RequestStatus := Pending | Accepted | Declined.

(** Modelled from the spec: [models/FriendRequest.js] is not part of the
    sources; the fields are those the friends router reads and writes. *)
Record FriendRequest := {
  fr_sender : string;
  fr_receiver : string;
  fr_status : RequestStatus
}.

(** Outbound events of the relay, with their payloads. *)
Inductive OutEvent :=
  | FriendOnline (userId : string)
  | FriendOffline (userId : string) (lastSeenAt : Z)
  | FriendCurrentlyPlaying (userId : string) (songId : option string) (timestamp : Z)
  | NewMessage (message : ChatMessage)
  | MessageSent (message : ChatMessage)
  | MessageError (error : string)
  | UserTyping (userId : string).

(** Inbound event names a socket can listen to. *)
Inductive EventName := PrivateMessage | Typing | UpdateCurrentlyPlaying | Disconnect.

Global Instance EventName_eq_dec : EqDecision EventName.
Proof. solve_decision. Defined.

(** What the connection handler knows of a socket: [socket.id] and
    [socket.user._id]. *)
Record Socket := {
  socket_id : string;
  socket_user : string
}.

Inductive Error :=
  | TypeError
  | DbError.

(** The process state together with its environment. *)
Record World := {
  connectedUsers : gmap string string;
  listeners : list (string * EventName);
  users : gmap string UserDoc;
  messages : list ChatMessage;
  friendRequests : gmap string FriendRequest;
  emitted : list (string * OutEvent);
  logged : list string;
  clock : nat -> Z;
  ticks : nat;
  faults : nat -> bool;
  dbCalls : nat
}.

(** ** A state and exception monad for handler bodies *)

Inductive Outcome (A : Type) :=
  | Returned (a : A)
  | Threw (e : Error).
Arguments Returned {A} a.
Arguments Threw {A} e.

Definition M (A : Type) : Type := World -> Outcome A * World.

Definition ret {A} (a : A) : M A := fun w => (Returned a, w).

Definition bind {A B} (m : M A) (k : A -> M B) : M B :=
  fun w => match m w with
           | (Returned a, w') => k a w'
           | (Threw e, w') => (Threw e, w')
           end.

Definition throw {A} (e : Error) : M A := fun w => (Threw e, w).

(** [try { body } catch (error) { handler }] *)
Definition tryCatch {A} (body : M A) (handler : Error -> M A) : M A :=
  fun w => match body w with
           | (Returned a, w') => (Returned a, w')
           | (Threw e, w') => handler e w'
           end.

Declare Scope relay_scope.
Delimit Scope relay_scope with relay.
Notation "x <- m ;; k" := (bind m (fun x => k))
  (at level 100, m at next level, right associativity) : relay_scope.
Notation "m ;;; k" := (bind m (fun _ => k))
  (at level 100, right associativity) : relay_scope.
Open Scope relay_scope.

(** [Array.prototype.forEach] with an effectful callback. *)
Fixpoint forEach {A} (l : list A) (f : A -> M unit) : M unit :=
  match l with
  | [] => ret tt
  | x :: l' => f x ;;; forEach l' f
  end.

(** ** Field updates *)

Definition set_connectedUsers (f : gmap string string -> gmap string string) (w : World) : World :=
  {| connectedUsers := f (connectedUsers w); listeners := listeners w; users := users w;
     messages := messages w; friendRequests := friendRequests w; emitted := emitted w;
     logged := logged w; clock := clock w; ticks := ticks w; faults := faults w;
     dbCalls := dbCalls w |}.

Definition set_listeners (f : list (string * EventName) -> list (string * EventName)) (w : World) : World :=
  {| connectedUsers := connectedUsers w; listeners := f (listeners w); users := users w;
     messages := messages w; friendRequests := friendRequests w; emitted := emitted w;
     logged := logged w; clock := clock w; ticks := ticks w; faults := faults w;
     dbCalls := dbCalls w |}.

Definition set_users (f : gmap string UserDoc -> gmap string UserDoc) (w : World) : World :=
  {| connectedUsers := connectedUsers w; listeners := listeners w; users := f (users w);
     messages := messages w; friendRequests := friendRequests w; emitted := emitted w;
     logged := logged w; clock := clock w; ticks := ticks w; faults := faults w;
     dbCalls := dbCalls w |}.

Definition set_messages (f : list ChatMessage -> list ChatMessage) (w : World) : World :=
  {| connectedUsers := connectedUsers w; listeners := listeners w; users := users w;
     messages := f (messages w); friendRequests := friendRequests w; emitted := emitted w;
     logged := logged w; clock := clock w; ticks := ticks w; faults := faults w;
     dbCalls := dbCalls w |}.

Definition set_friendRequests (f : gmap string FriendRequest -> gmap string FriendRequest) (w : World) : World :=
  {| connectedUsers := connectedUsers w; listeners := listeners w; users := users w;
     messages := messages w; friendRequests := f (friendRequests w); emitted := emitted w;
     logged := logged w; clock := clock w; ticks := ticks w; faults := faults w;
     dbCalls := dbCalls w |}.

Definition set_emitted (f : list (string * OutEvent) -> list (string * OutEvent)) (w : World) : World :=
  {| connectedUsers := connectedUsers w; listeners := listeners w; users := users w;
     messages := messages w; friendRequests := friendRequests w; emitted := f (emitted w);
     logged := logged w; clock := clock w; ticks := ticks w; faults := faults w;
     dbCalls := dbCalls w |}.

Definition set_logged (f : list string -> list string) (w : World) : World :=
  {| connectedUsers := connectedUsers w; listeners := listeners w; users := users w;
     messages := messages w; friendRequests := friendRequests w; emitted := emitted w;
     logged := f (logged w); clock := clock w; ticks := ticks w; faults := faults w;
     dbCalls := dbCalls w |}.

Definition set_ticks (f : nat -> nat) (w : World) : World :=
  {| connectedUsers := connectedUsers w; listeners := listeners w; users := users w;
     messages := messages w; friendRequests := friendRequests w; emitted := emitted w;
     logged := logged w; clock := clock w; ticks := f (ticks w); faults := faults w;
     dbCalls := dbCalls w |}.

Definition set_dbCalls (f : nat -> nat) (w : World) : World :=
  {| connectedUsers := connectedUsers w; listeners := listeners w; users := users w;
     messages := messages w; friendRequests := friendRequests w; emitted := emitted w;
     logged := logged w; clock := clock w; ticks := ticks w; faults := faults w;
     dbCalls := f (dbCalls w) |}.

(** [{ isOnline: online, lastSeen: now }] *)
Definition setPresence (online : bool) (now : Z) (u : UserDoc) : UserDoc :=
  {| username := username u; firstName := firstName u; lastName := lastName u;
     profilePicture := profilePicture u; friends := friends u;
     currentlyPlaying := currentlyPlaying u; isOnline := online; lastSeen := now |}.

(** [{ currentlyPlaying: { song: songId, timestamp: now } }] *)
Definition setCurrentlyPlaying (songId : option string) (now : Z) (u : UserDoc) : UserDoc :=
  {| username := username u; firstName := firstName u; lastName := lastName u;
     profilePicture := profilePicture u; friends := friends u;
     currentlyPlaying := Some (songId, now); isOnline := isOnline u; lastSeen := lastSeen u |}.

(** MongoDB's [$addToSet]: append unless already present. *)
Definition addToSet (x : string) (l : list string) : list string :=
  if bool_decide (x ∈ l) then l else l ++ [x].

(** [{ $addToSet: { friends: x } }] *)
Definition addToSetFriends (x : string) (u : UserDoc) : UserDoc :=
  {| username := username u; firstName := firstName u; lastName := lastName u;
     profilePicture := profilePicture u; friends := addToSet x (friends u);
     currentlyPlaying := currentlyPlaying u; isOnline := isOnline u; lastSeen := lastSeen u |}.

Definition setStatus (s : RequestStatus) (r : FriendRequest) : FriendRequest :=
  {| fr_sender := fr_sender r; fr_receiver := fr_receiver r; fr_status := s |}.

Definition senderInfo (id : string) (u : UserDoc) : SenderInfo :=
  {| si_id := id; si_username := username u; si_firstName := firstName u;
     si_lastName := lastName u; si_profilePicture := profilePicture u |}.

(** ** Primitive operations *)

(** [new Date()] *)
Definition newDate : M Z :=
  fun w => (Returned (clock w (ticks w)), set_ticks S w).

(** The suspension point of an awaited database call: it resolves or
    rejects as the environment decides. *)
Definition awaitDb : M unit :=
  fun w => if faults w (dbCalls w)
           then (Threw DbError, set_dbCalls S w)
           else (Returned tt, set_dbCalls S w).

Definition connectedUsers_set (key value : string) : M unit :=
  fun w => (Returned tt, set_connectedUsers (insert key value) w).

(** [connectedUsers.get(key)]; the keys of the map are strings, so an
    [undefined] key finds nothing. *)
Definition connectedUsers_get (key : option string) : M (option string) :=
  fun w => (Returned (match key with
                      | Some k => connectedUsers w !! k
                      | None => None
                      end), w).

Definition connectedUsers_delete (key : string) : M unit :=
  fun w => (Returned tt, set_connectedUsers (delete key) w).

(** [if (v) { k(v) }] for a value that is a string or [undefined]: the
    empty string is falsy. *)
Definition ifTruthy (v : option string) (k : string -> M unit) : M unit :=
  match v with
  | Some s => if String.eqb s "" then ret tt else k s
  | None => ret tt
  end.

(** [io.to(room).emit(event, payload)]; every socket is alone in the room
    named by its own id. *)
Definition io_to_emit (room : string) (ev : OutEvent) : M unit :=
  fun w => (Returned tt, set_emitted (fun l => l ++ [(room, ev)]) w).

(** [socket.emit(event, payload)] *)
Definition socket_emit (socket : Socket) (ev : OutEvent) : M unit :=
  io_to_emit (socket_id socket) ev.

(** [socket.on(name, handler)] *)
Definition socket_on (socket : Socket) (name : EventName) : M unit :=
  fun w => (Returned tt, set_listeners (fun l => l ++ [(socket_id socket, name)]) w).

Definition console_error (msg : string) : M unit :=
  fun w => (Returned tt, set_logged (fun l => l ++ [msg]) w).

(** [const { ... } = data] throws a TypeError on [undefined]. *)
Definition destructure {A} (data : option A) : M A :=
  match data with
  | Some d => ret d
  | None => throw TypeError
  end.

(** [await User.findByIdAndUpdate(id, update)]: no upsert, the result is
    not used by any caller. *)
Definition User_findByIdAndUpdate (id : string) (update : UserDoc -> UserDoc) : M unit :=
  awaitDb ;;;
  fun w => (Returned tt, set_users (alter update id) w).

(** [await User.updateOne({ _id: id }, update)] *)
Definition User_updateOne (id : string) (update : UserDoc -> UserDoc) : M unit :=
  awaitDb ;;;
  fun w => (Returned tt, set_users (alter update id) w).

(** [await User.findById(id)]: the document or [null]. *)
Definition User_findById (id : string) : M (option UserDoc) :=
  awaitDb ;;;
  fun w => (Returned (users w !! id), w).

(** [await ChatMessage.create({ sender, receiver, content })] *)
Definition ChatMessage_create (from : string) (to body : option string) : M ChatMessage :=
  awaitDb ;;;
  now <- newDate ;;
  let message := {| sender := SenderId from; receiver := to; content := body;
                    createdAt := now |} in
  fun w => (Returned message, set_messages (fun l => l ++ [message]) w).

(** [await message.populate("sender", "username firstName lastName
    profilePicture")]: the in-memory document is changed, the stored one is
    not. *)
Definition populateSender (message : ChatMessage) : M ChatMessage :=
  awaitDb ;;;
  fun w =>
    (Returned
       {| sender := match sender message with
                    | SenderId id => SenderPopulated (senderInfo id <$> users w !! id)
                    | SenderPopulated info => SenderPopulated info
                    end;
          receiver := receiver message; content := content message;
          createdAt := createdAt message |}, w).

(** [await FriendRequest.findById(id)] *)
Definition FriendRequest_findById (id : string) : M (option FriendRequest) :=
  awaitDb ;;;
  fun w => (Returned (friendRequests w !! id), w).

(** [await request.save()] for the request stored under [id]. *)
Definition FriendRequest_save (id : string) (request : FriendRequest) : M unit :=
  awaitDb ;;;
  fun w => (Returned tt, set_friendRequests (insert id request) w).

(** ** Inbound payloads *)

(** [{ receiverId, content }] *)
Record MessageData := {
  md_receiverId : option string;
  md_content : option string
}.

(** [{ receiverId }] *)
Record TypingData := {
  td_receiverId : option string
}.

(** [{ songId }] *)
Record PlayingData := {
  pd_songId : option string
}.

(** ** The socket manager ([socketManager.js]) *)

(** [socket.on("privateMessage", async (data) => ...)] *)
Definition onPrivateMessage (socket : Socket) (data : option MessageData) : M unit :=
  let userId := socket_user socket in
  tryCatch
    (d <- destructure data ;;
     let receiverId := md_receiverId d in
     let content := md_content d in
     message <- ChatMessage_create userId receiverId content ;;
     message <- populateSender message ;;
     receiverSocketId <- connectedUsers_get receiverId ;;
     ifTruthy receiverSocketId
       (fun room => io_to_emit room (NewMessage message)) ;;;
     socket_emit socket (MessageSent message))
    (fun error =>
       console_error "Error sending private message:" ;;;
       socket_emit socket (MessageError "Failed to send message")).

(** [socket.on("typing", (data) => ...)] *)
Definition onTyping (socket : Socket) (data : option TypingData) : M unit :=
  let userId := socket_user socket in
  d <- destructure data ;;
  let receiverId := td_receiverId d in
  receiverSocketId <- connectedUsers_get receiverId ;;
  ifTruthy receiverSocketId
    (fun room => io_to_emit room (UserTyping userId)).

(** [socket.on("updateCurrentlyPlaying", async (data) => ...)] *)
Definition onUpdateCurrentlyPlaying (socket : Socket) (data : option PlayingData) : M unit :=
  let userId := socket_user socket in
  tryCatch
    (d <- destructure data ;;
     let songId := pd_songId d in
     now <- newDate ;;
     User_findByIdAndUpdate userId (setCurrentlyPlaying songId now) ;;;
     user <- User_findById userId ;;
     match user with
     | Some user =>
         if Nat.ltb 0 (length (friends user)) then
           forEach (friends user) (fun friendId =>
             friendSocketId <- connectedUsers_get (Some friendId) ;;
             ifTruthy friendSocketId (fun room =>
               now <- newDate ;;
               io_to_emit room (FriendCurrentlyPlaying userId songId now)))
         else ret tt
     | None => ret tt
     end)
    (fun error => console_error "Error updating currently playing:").

(** [socket.on("disconnect", async () => ...)] *)
Definition onDisconnect (socket : Socket) : M unit :=
  let userId := socket_user socket in
  connectedUsers_delete userId ;;;
  now <- newDate ;;
  User_findByIdAndUpdate userId (setPresence false now) ;;;
  user <- User_findById userId ;;
  match user with
  | Some user =>
      if Nat.ltb 0 (length (friends user)) then
        forEach (friends user) (fun friendId =>
          friendSocketId <- connectedUsers_get (Some friendId) ;;
          ifTruthy friendSocketId (fun room =>
            now <- newDate ;;
            io_to_emit room (FriendOffline userId now)))
      else ret tt
  | None => ret tt
  end.

(** [io.on("connection", async (socket) => ...)] *)
Definition onConnection (socket : Socket) : M unit :=
  let userId := socket_user socket in
  connectedUsers_set userId (socket_id socket) ;;;
  now <- newDate ;;
  User_findByIdAndUpdate userId (setPresence true now) ;;;
  user <- User_findById userId ;;
  match user with
  | Some user =>
      if Nat.ltb 0 (length (friends user)) then
        forEach (friends user) (fun friendId =>
          friendSocketId <- connectedUsers_get (Some friendId) ;;
          ifTruthy friendSocketId (fun room =>
            io_to_emit room (FriendOnline userId)))
      else ret tt
  | None => ret tt
  end ;;;
  socket_on socket PrivateMessage ;;;
  socket_on socket Typing ;;;
  socket_on socket UpdateCurrentlyPlaying ;;;
  socket_on socket Disconnect.

(** What the transport delivers to the process. *)
Inductive InEvent :=
  | EvConnection (socket : Socket)
  | EvPrivateMessage (socket : Socket) (data : option MessageData)
  | EvTyping (socket : Socket) (data : option TypingData)
  | EvUpdateCurrentlyPlaying (socket : Socket) (data : option PlayingData)
  | EvDisconnect (socket : Socket).

Definition listening (socket : Socket) (name : EventName) (w : World) : bool :=
  bool_decide ((socket_id socket, name) ∈ listeners w).

(** An event of a socket reaches the handler registered for it, if any. *)
Definition dispatch (ev : InEvent) (w : World) : World :=
  match ev with
  | EvConnection socket => snd (onConnection socket w)
  | EvPrivateMessage socket data =>
      if listening socket PrivateMessage w then snd (onPrivateMessage socket data w) else w
  | EvTyping socket data =>
      if listening socket Typing w then snd (onTyping socket data w) else w
  | EvUpdateCurrentlyPlaying socket data =>
      if listening socket UpdateCurrentlyPlaying w
      then snd (onUpdateCurrentlyPlaying socket data w) else w
  | EvDisconnect socket =>
      if listening socket Disconnect w then snd (onDisconnect socket w) else w
  end.

Definition run (evs : list InEvent) (w : World) : World :=
  fold_left (fun w ev => dispatch ev w) evs w.

(** ** The friends router: [POST /request/:requestId/accept] *)

Record Response := {
  status : nat;
  body : string
}.

Definition acceptRequest (reqUser : string) (requestId : string) : M Response :=
  tryCatch
    (request <- FriendRequest_findById requestId ;;
     match request with
     | None => ret {| status := 404; body := "Request not found" |}
     | Some request =>
         if negb (String.eqb (fr_receiver request) reqUser) then
           ret {| status := 403; body := "Not authorized" |}
         else
           User_updateOne (fr_sender request) (addToSetFriends (fr_receiver request)) ;;;
           User_updateOne (fr_receiver request) (addToSetFriends (fr_sender request)) ;;;
           FriendRequest_save requestId (setStatus Accepted request) ;;;
           ret {| status := 200; body := "Friend request accepted" |}
     end)
    (fun err =>
       console_error "Error accepting friend request:" ;;;
       ret {| status := 500; body := "Internal server error" |}).

(** ** Fan-out: the loop over the friend list *)

(** The handle under which a user can be reached: the registry entry, if
    it is truthy. *)
Definition liveHandle (registry : gmap string string) (userId : string) : option string :=
  match registry !! userId with
  | Some s => if String.eqb s "" then None else Some s
  | None => None
  end.

(** The handles of the connected friends, in the order of the friend list. *)
Definition liveHandles (registry : gmap string string) (friendIds : list string) : list string :=
  omap (liveHandle registry) friendIds.

(** Distinct users are registered under distinct handles. *)
Definition handlesInjective (registry : gmap string string) : Prop :=
  forall u1 u2 s, registry !! u1 = Some s -> registry !! u2 = Some s -> u1 = u2.

(** The events of a trace that are addressed to the handle [s]. *)
Definition deliveredTo (s : string) (trace : list (string * OutEvent)) : list OutEvent :=
  snd <$> filter (fun e => e.1 = s) trace.

(** The effect of a handler that only emits [new] and reads the clock [n]
    times. *)
Definition emits (new : list (string * OutEvent)) (n : nat) (w : World) : World :=
  set_ticks (fun t => (t + n)%nat) (set_emitted (fun l => l ++ new) w).

(** ** Properties of the environment *)

(** Later readings of the clock are not smaller than earlier ones. *)
Definition monotoneClock (w : World) : Prop :=
  forall i j : nat, (i <= j)%nat -> clock w i <= clock w j.


(** A computation all of whose runs relate the initial to the final state
    by [R], whether it returns or throws. *)
Definition preserves {A} (R : World -> World -> Prop) (m : M A) : Prop :=
  forall w, R w (snd (m w)).

(** The registry of [w'] is that of [w]. *)
Definition sameRegistry (w w' : World) : Prop :=
  connectedUsers w' = connectedUsers w.

(** The sockets of [w'] listen to what they listened to in [w]. *)
Definition sameListeners (w w' : World) : Prop :=
  listeners w' = listeners w.

(** ** Example worlds *)

Definition mkUser (name : string) (friendIds : list string) : UserDoc :=
  {| username := name; firstName := name; lastName := ""; profilePicture := "";
     friends := friendIds; currentlyPlaying := None; isOnline := false; lastSeen := 0 |}.

(** Alice and Bob are friends of each other, Carol is a friend of Alice who
    is not connected; Bob is connected through the socket ["sB"].  The
    clock shows 100 at the first reading and advances by one per reading;
    [failing] tells which database calls reject. *)
Definition exampleWorld (failing : nat -> bool) : World :=
  {| connectedUsers := {[ "bob" := "sB" ]};
     listeners := [];
     users := {[ "alice" := mkUser "alice" ["bob"; "carol"];
                 "bob" := mkUser "bob" ["alice"];
                 "carol" := mkUser "carol" [] ]};
     messages := [];
     friendRequests := {[ "r1" := {| fr_sender := "carol"; fr_receiver := "bob";
                                      fr_status := Pending |} ]};
     emitted := [];
     logged := [];
     clock := fun n => 100 + Z.of_nat n;
     ticks := 0;
     faults := failing;
     dbCalls := 0 |}.

Definition socketAlice : Socket := {| socket_id := "sA"; socket_user := "alice" |}.
Definition socketCarol : Socket := {| socket_id := "sC"; socket_user := "carol" |}.

Definition noFault : nat -> bool := fun _ => false.
Definition firstCallFails : nat -> bool := fun n => Nat.eqb n 0.

(** Every stored friend list is a set. *)
Definition friendSets (us : gmap string UserDoc) : Prop :=
  forall u doc, us !! u = Some doc -> NoDup (friends doc).

(** If the friend lists of [w] are sets, so are those of [w']. *)
Definition keepsFriendSets (w w' : World) : Prop :=
  friendSets (users w) -> friendSets (users w').

(** The socket id of a new connection is not the handle of another user. *)
Definition freshConnection (ev : InEvent) (w : World) : Prop :=
  match ev with
  | EvConnection socket =>
      forall u, u <> socket_user socket -> connectedUsers w !! u <> Some (socket_id socket)
  | _ => True
  end.

(** The friend relation is undirected: whoever lists a user as a friend is
    listed by that user. *)
Definition symmetricFriends (us : gmap string UserDoc) : Prop :=
  forall a b da db,
    us !! a = Some da -> us !! b = Some db -> b ∈ friends da -> a ∈ friends db.

(** ** More about the relay *)

(** The socket an inbound event arrives on. *)
Definition eventSocket (ev : InEvent) : Socket :=
  match ev with
  | EvConnection socket => socket
  | EvPrivateMessage socket _ => socket
  | EvTyping socket _ => socket
  | EvUpdateCurrentlyPlaying socket _ => socket
  | EvDisconnect socket => socket
  end.

(** Events a socket sends once it exists, as opposed to its connection. *)
Definition isSocketEvent (ev : InEvent) : bool :=
  match ev with
  | EvConnection _ => false
  | _ => true
  end.

(** The four [socket.on] registrations of the connection handler. *)
Definition handlersOf (socket : Socket) : list (string * EventName) :=
  [(socket_id socket, PrivateMessage); (socket_id socket, Typing);
   (socket_id socket, UpdateCurrentlyPlaying); (socket_id socket, Disconnect)].

(** Nothing that was stored, emitted or logged in [w] is removed or
    changed in [w']. *)
Definition appendOnly (w w' : World) : Prop :=
  messages w `prefix_of` messages w' /\
  emitted w `prefix_of` emitted w' /\
  logged w `prefix_of` logged w'.

(** The social graph of [w'] is that of [w]: the same users with the same
    friend lists, and the same friend requests. *)
Definition sameGraph (w w' : World) : Prop :=
  (forall u, friends <$> users w' !! u = friends <$> users w !! u) /\
  friendRequests w' = friendRequests w.
(** ** More of the friends router *)

Global Instance RequestStatus_eq_dec : EqDecision RequestStatus.
Proof. solve_decision. Defined.

(** What [res.json] sends: a document, or an error with its status. *)
Inductive Reply (A : Type) :=
  | Json (a : A)
  | JsonError (r : Response).
Arguments Json {A} a.
Arguments JsonError {A} r.

(** [await FriendRequest.findOne(query)]: a stored request that matches,
    or [null].  Which one is returned when several match is up to the
    database; the callers only test for presence. *)
Definition FriendRequest_findOne (query : FriendRequest -> bool) : M (option FriendRequest) :=
  awaitDb ;;;
  fun w => (Returned (head (filter (fun r => query r) (map_to_list (friendRequests w)).*2)), w).


Section SendRequest.

(** The value the schema gives to [status] of a new request;
    [models/FriendRequest.js] is not part of the sources. *)
Variable initialStatus : RequestStatus.

(** [await FriendRequest.create({ sender, receiver })]; [newId] is the
    [_id] the database assigns to the new document. *)
Definition FriendRequest_create (newId from to : string) : M FriendRequest :=
  awaitDb ;;;
  let request := {| fr_sender := from; fr_receiver := to; fr_status := initialStatus |} in
  fun w => (Returned request, set_friendRequests (insert newId request) w).


End SendRequest.












(** ** The song routes (like, unlike, is-liked, create, delete)

    The routes work on the songs and on the [likedSongs] arrays of the
    user documents; their state is kept apart from the relay's.  The
    [console.log] lines of the routes are left out, [console.error] is
    kept. *)

Module SongRoutes.

(** [models/Song.js]; [artist] is not required by the schema. *)
Record Song := {
  song_name : string;
  song_thumbnail : string;
  song_track : string;
  song_artist : option string;
  song_author : string
}.

(** The stored songs, and for each stored user the [likedSongs] array. *)
Record Library := {
  songs : gmap string Song;
  likedSongs : gmap string (list string);
  libLogged : list string;
  libFaults : nat -> bool;
  libCalls : nat
}.

Definition L (A : Type) : Type := Library -> Outcome A * Library.

Definition lret {A} (a : A) : L A := fun s => (Returned a, s).

Definition lbind {A B} (m : L A) (k : A -> L B) : L B :=
  fun s => match m s with
           | (Returned a, s') => k a s'
           | (Threw e, s') => (Threw e, s')
           end.

Definition lthrow {A} (e : Error) : L A := fun s => (Threw e, s).

Definition ltry {A} (body : L A) (handler : Error -> L A) : L A :=
  fun s => match body s with
           | (Returned a, s') => (Returned a, s')
           | (Threw e, s') => handler e s'
           end.

Declare Scope songs_scope.
Delimit Scope songs_scope with songs.
Notation "x <- m ;; k" := (lbind m (fun x => k))
  (at level 100, m at next level, right associativity) : songs_scope.
Notation "m ;;; k" := (lbind m (fun _ => k))
  (at level 100, right associativity) : songs_scope.
Local Open Scope songs_scope.

Definition set_songs (f : gmap string Song -> gmap string Song) (s : Library) : Library :=
  {| songs := f (songs s); likedSongs := likedSongs s; libLogged := libLogged s;
     libFaults := libFaults s; libCalls := libCalls s |}.

Definition set_likedSongs
    (f : gmap string (list string) -> gmap string (list string)) (s : Library) : Library :=
  {| songs := songs s; likedSongs := f (likedSongs s); libLogged := libLogged s;
     libFaults := libFaults s; libCalls := libCalls s |}.

Definition set_libLogged (f : list string -> list string) (s : Library) : Library :=
  {| songs := songs s; likedSongs := likedSongs s; libLogged := f (libLogged s);
     libFaults := libFaults s; libCalls := libCalls s |}.

Definition set_libCalls (f : nat -> nat) (s : Library) : Library :=
  {| songs := songs s; likedSongs := likedSongs s; libLogged := libLogged s;
     libFaults := libFaults s; libCalls := f (libCalls s) |}.

(** The suspension point of an awaited database call. *)
Definition awaitLib : L unit :=
  fun s => if libFaults s (libCalls s)
           then (Threw DbError, set_libCalls S s)
           else (Returned tt, set_libCalls S s).

Definition log_error (msg : string) : L unit :=
  fun s => (Returned tt, set_libLogged (fun l => l ++ [msg]) s).

(** [!x] for a value that is a string or [undefined]. *)
Definition falsy (x : option string) : bool :=
  match x with
  | Some s => String.eqb s ""
  | None => true
  end.

(** A string that passed the [!x] test. *)
Definition theString (x : option string) : string :=
  match x with
  | Some s => s
  | None => ""
  end.

(** [await Song.findById(id)] *)
Definition Song_findById (id : string) : L (option Song) :=
  awaitLib ;;; fun s => (Returned (songs s !! id), s).

(** [await Song.create(details)]; [newId] is the [_id] the database
    assigns. *)
Definition Song_create (newId : string) (details : Song) : L Song :=
  awaitLib ;;; fun s => (Returned details, set_songs (insert newId details) s).

(** [await Song.findByIdAndDelete(id)]: the deleted document or [null]. *)
Definition Song_findByIdAndDelete (id : string) : L (option Song) :=
  awaitLib ;;; fun s => (Returned (songs s !! id), set_songs (delete id) s).

(** [await User.findById(id)], as far as the song routes read it: the
    [likedSongs] array of the document, or [null]. *)
Definition User_findLiked (id : string) : L (option (list string)) :=
  awaitLib ;;; fun s => (Returned (likedSongs s !! id), s).

(** [await User.findByIdAndUpdate(id, update, { new: true })]: the updated
    document or [null]. *)
Definition User_updateLiked (id : string) (update : list string -> list string)
    : L (option (list string)) :=
  awaitLib ;;;
  fun s => (Returned (update <$> likedSongs s !! id),
            set_likedSongs (alter update id) s).

(** [{ $push: { likedSongs: songId } }] *)
Definition push (songId : string) (l : list string) : list string := l ++ [songId].

(** [{ $pull: { likedSongs: songId } }]: every occurrence goes. *)
Definition pull (songId : string) (l : list string) : list string :=
  filter (fun id => id <> songId) l.

(** [await User.updateMany({ likedSongs: songId }, { $pull: ... })] *)
Definition User_pullFromAll (songId : string) : L unit :=
  awaitLib ;;;
  fun s => (Returned tt,
            set_likedSongs (fmap (fun l => if bool_decide (songId ∈ l)
                                           then pull songId l else l)) s).

(** [likedSongs.some(id => id.toString() === songId)] *)
Definition some_equal (songId : string) (l : list string) : bool :=
  existsb (String.eqb songId) l.

Section RequestIds.

(** The song id of a request body is a string that mongoose casts to an
    ObjectId wherever it is handed to a query or an update.  [castId] gives
    the stored spelling of the ObjectId a string casts to, if it casts
    (mongoose and bson are not part of the sources); a stored id casts to
    itself, another spelling of the same hexadecimal digits casts to the
    stored one. *)
Variable castId : string -> option string.

(** [await Song.findById(songId)] for a request string: the string is
    cast, and a string that does not cast makes the call reject. *)
Definition Song_findByRequestId (songId : string) : L (option Song) :=
  match castId songId with
  | Some id => Song_findById id
  | None => lthrow DbError
  end.

(** [await User.findByIdAndUpdate(id, { $op: { likedSongs: songId } },
    { new: true })] for a request string: the update is cast as well. *)
Definition User_updateLikedWith (id : string)
    (op : string -> list string -> list string) (songId : string)
    : L (option (list string)) :=
  match castId songId with
  | Some cast => User_updateLiked id (op cast)
  | None => lthrow DbError
  end.

(** [POST /like].  The song is looked up and pushed under the cast id;
    the already-liked test compares the stored ids with the request string
    as it was sent. *)
Definition like (reqUser : string) (body_songId : option string) : L Response :=
  ltry
    (let songId := body_songId in
     if falsy songId then lret {| status := 400; body := "Song ID is required" |}
     else
       let songId := theString songId in
       song <- Song_findByRequestId songId ;;
       match song with
       | None => lret {| status := 404; body := "Song not found" |}
       | Some _ =>
           user <- User_findLiked reqUser ;;
           match user with
           | None => lret {| status := 404; body := "User not found" |}
           | Some liked =>
               let alreadyLiked := some_equal songId liked in
               if negb alreadyLiked then
                 updatedUser <- User_updateLikedWith reqUser push songId ;;
                 match updatedUser with
                 | None => lret {| status := 500; body := "Failed to update liked songs" |}
                 | Some _ => lret {| status := 200; body := "Song liked successfully" |}
                 end
               else lret {| status := 200; body := "Song liked successfully" |}
           end
       end)
    (fun err =>
       log_error "Error liking song:" ;;;
       lret {| status := 500; body := "Internal server error" |}).

(** [POST /unlike] *)
Definition unlike (reqUser : string) (body_songId : option string) : L Response :=
  ltry
    (let songId := body_songId in
     if falsy songId then lret {| status := 400; body := "Song ID is required" |}
     else
       let songId := theString songId in
       user <- User_findLiked reqUser ;;
       match user with
       | None => lret {| status := 404; body := "User not found" |}
       | Some _ =>
           updatedUser <- User_updateLikedWith reqUser pull songId ;;
           match updatedUser with
           | None => lret {| status := 500; body := "Failed to update liked songs" |}
           | Some _ => lret {| status := 200; body := "Song unliked successfully" |}
           end
       end)
    (fun err =>
       log_error "Error unliking song:" ;;;
       lret {| status := 500; body := "Internal server error" |}).

End RequestIds.

(** [GET /is-liked/:songId]: the stored ids are compared with the request
    string as it was sent; nothing is cast. *)
Definition isLiked (reqUser : string) (songId : string) : L (Reply bool) :=
  ltry
    (user <- User_findLiked reqUser ;;
     match user with
     | None => lret (JsonError {| status := 404; body := "User not found" |})
     | Some liked => lret (Json (some_equal songId liked))
     end)
    (fun err =>
       log_error "API Error:" ;;;
       lret (JsonError {| status := 500; body := "Internal server error" |})).


(** [song.artist.toString()] *)
Definition artistString (song : Song) : L string :=
  match song_artist song with
  | Some a => lret a
  | None => lthrow TypeError
  end.

(** [DELETE /delete/:songId], called by an authenticated user. *)
Definition deleteSong (reqUser : string) (songId : string) : L Response :=
  ltry
    (if String.eqb songId "" then lret {| status := 400; body := "Song ID is required" |}
     else
       song <- Song_findById songId ;;
       match song with
       | None => lret {| status := 404; body := "Song not found" |}
       | Some song =>
           artist <- artistString song ;;
           if negb (String.eqb artist reqUser) then
             lret {| status := 403; body := "Not authorized to delete this song" |}
           else
             deletedSong <- Song_findByIdAndDelete songId ;;
             match deletedSong with
             | None => lret {| status := 500; body := "Failed to delete song" |}
             | Some _ =>
                 User_pullFromAll songId ;;;
                 lret {| status := 200; body := "Song deleted successfully" |}
             end
       end)
    (fun err =>
       log_error "Error deleting song:" ;;;
       lret {| status := 500; body := "Internal server error" |}).

(** Every liked song is a stored song. *)
Definition likedExist (s : Library) : Prop :=
  forall u l id, likedSongs s !! u = Some l -> id ∈ l -> is_Some (songs s !! id).

End SongRoutes.
(** ** More example states *)


(** Bob and Carol before they are friends, with Carol's request to Bob. *)
Definition strangersWorld : World :=
  set_users (fun _ => {[ "bob" := mkUser "bob" []; "carol" := mkUser "carol" [] ]})
    (exampleWorld noFault).

Definition thirdCallFails : nat -> bool := fun n => Nat.eqb n 2.
Definition secondCallFails : nat -> bool := fun n => Nat.eqb n 1.

Definition mkSong (name artist : string) : SongRoutes.Song :=
  {| SongRoutes.song_name := name; SongRoutes.song_thumbnail := "t";
     SongRoutes.song_track := "u"; SongRoutes.song_artist := Some artist;
     SongRoutes.song_author := artist |}.

(** Two songs, by Alice and by Bob; Alice likes Bob's song, Bob likes
    both, Carol none. *)
Definition exampleLibrary (failing : nat -> bool) : SongRoutes.Library :=
  {| SongRoutes.songs := {[ "s1" := mkSong "one" "alice"; "s2" := mkSong "two" "bob" ]};
     SongRoutes.likedSongs := {[ "alice" := ["s2"]; "bob" := ["s1"; "s2"]; "carol" := [] ]};
     SongRoutes.libLogged := [];
     SongRoutes.libFaults := failing;
     SongRoutes.libCalls := 0 |}.

(** A cast for the example library: the request string ["S1"] is another
    spelling of the stored id ["s1"]; every other string casts to itself. *)
Definition exampleCast (x : string) : option string :=
  if String.eqb x "S1" then Some "s1" else Some x.

(** * Properties *)

Lemma emits_nil w : emits [] 0 w = w.
Proof.
  destruct w; unfold emits, set_ticks, set_emitted; simpl.
  by rewrite app_nil_r, Nat.add_0_r.
Qed.

Lemma emits_emits a n b m w :
  emits b m (emits a n w) = emits (a ++ b) (n + m) w.
Proof.
  unfold emits, set_ticks, set_emitted; simpl.
  by rewrite app_assoc, Nat.add_assoc.
Qed.

Lemma elem_of_liveHandles registry friendIds s :
  s ∈ liveHandles registry friendIds <->
  exists f, f ∈ friendIds /\ liveHandle registry f = Some s.
Proof. unfold liveHandles. apply list_elem_of_omap. Qed.

Lemma liveHandle_lookup registry f s :
  liveHandle registry f = Some s -> registry !! f = Some s /\ s <> "".
Proof.
  unfold liveHandle. destruct (registry !! f) as [h|]; [|done].
  destruct (String.eqb_spec h ""); [done|]. intros [= ->]. done.
Qed.

Lemma liveHandles_NoDup registry friendIds :
  NoDup friendIds -> handlesInjective registry ->
  NoDup (liveHandles registry friendIds).
Proof.
  intros Hnd Hinj. induction Hnd as [|f fs Hnotin Hnd IH]; simpl.
  - constructor.
  - unfold liveHandles in *. simpl.
    destruct (liveHandle registry f) as [s|] eqn:Hf; [|exact IH].
    constructor; [|exact IH].
    intros Hin. apply list_elem_of_omap in Hin as (g & Hg & Hgs).
    apply liveHandle_lookup in Hf as [Hf _].
    apply liveHandle_lookup in Hgs as [Hgs _].
    rewrite (Hinj f g s Hf Hgs) in Hnotin. contradiction.
Qed.

Lemma deliveredTo_NoDup s ev (trace : list (string * OutEvent)) :
  NoDup trace.*1 -> (s, ev) ∈ trace -> deliveredTo s trace = [ev].
Proof.
  unfold deliveredTo. induction trace as [|[s' ev'] trace IH]; simpl.
  - intros _ Hin. by apply elem_of_nil in Hin.
  - intros Hnd Hin. apply NoDup_cons in Hnd as [Hnotin Hnd].
    rewrite filter_cons. simpl. case_decide as Hs.
    + subst s'. simpl. f_equal.
      * apply elem_of_cons in Hin as [[= ->]|Hin]; [done|].
        exfalso. apply Hnotin. apply list_elem_of_fmap. by exists (s, ev).
      * assert (filter (fun e : string * OutEvent => e.1 = s) trace = []) as ->; [|done].
        clear -Hnotin. induction trace as [|[s2 e2] trace IH2]; [done|].
        rewrite filter_cons. simpl in *. apply not_elem_of_cons in Hnotin as [Hne Hnotin].
        case_decide; [congruence|]. by apply IH2.
    + apply IH; [done|]. apply elem_of_cons in Hin as [[= -> ->]|Hin]; [done|done].
Qed.

Lemma forEach_cons {A} (x : A) l (f : A -> M unit) w :
  forEach (x :: l) f w =
  match f x w with
  | (Returned _, w') => forEach l f w'
  | (Threw e, w') => (Threw e, w')
  end.
Proof. reflexivity. Qed.

Lemma emits_one_id (a : string * OutEvent) w :
  set_emitted (fun l => l ++ [a]) w = emits [a] 0 w.
Proof.
  destruct w; unfold emits, set_ticks, set_emitted; simpl. by rewrite Nat.add_0_r.
Qed.

Lemma emits_one_tick (a : string * OutEvent) w :
  set_emitted (fun l => l ++ [a]) (set_ticks S w) = emits [a] 1 w.
Proof.
  destruct w; unfold emits, set_ticks, set_emitted; simpl. by rewrite Nat.add_1_r.
Qed.

(** The loop of the connection handler. *)
Lemma forEach_friendOnline userId fs w :
  forEach fs (fun friendId =>
    friendSocketId <- connectedUsers_get (Some friendId) ;;
    ifTruthy friendSocketId (fun room => io_to_emit room (FriendOnline userId))) w
  = (Returned tt,
     emits ((fun s => (s, FriendOnline userId)) <$> liveHandles (connectedUsers w) fs) 0 w).
Proof.
  set (callback := fun friendId : string => _).
  assert (Hstep : forall f w, callback f w =
    (Returned tt, match liveHandle (connectedUsers w) f with
                  | Some s => emits [(s, FriendOnline userId)] 0 w
                  | None => w
                  end)).
  { intros f w0. unfold callback, bind, connectedUsers_get, ifTruthy, liveHandle.
    destruct (connectedUsers w0 !! f) as [s|]; [|done].
    destruct (String.eqb s ""); [done|].
    unfold io_to_emit. by rewrite emits_one_id. }
  clearbody callback. revert w. induction fs as [|f fs IH]; intros w.
  - simpl. unfold ret. by rewrite emits_nil.
  - rewrite forEach_cons, Hstep. unfold liveHandles. cbn [omap list_omap].
    destruct (liveHandle (connectedUsers w) f) as [s|]; [|apply IH].
    rewrite IH, emits_emits. reflexivity.
Qed.

(** The loops of the disconnect and now-playing handlers: each
    notification carries its own reading of the clock. *)
Lemma forEach_stamped (mk : Z -> OutEvent) fs w :
  forEach fs (fun friendId =>
    friendSocketId <- connectedUsers_get (Some friendId) ;;
    ifTruthy friendSocketId (fun room =>
      now <- newDate ;; io_to_emit room (mk now))) w
  = (Returned tt,
     emits (imap (fun i s => (s, mk (clock w (ticks w + i)%nat)))
                 (liveHandles (connectedUsers w) fs))
           (length (liveHandles (connectedUsers w) fs)) w).
Proof.
  set (callback := fun friendId : string => _).
  assert (Hstep : forall f w, callback f w =
    (Returned tt, match liveHandle (connectedUsers w) f with
                  | Some s => emits [(s, mk (clock w (ticks w)))] 1 w
                  | None => w
                  end)).
  { intros f w0. unfold callback, bind, connectedUsers_get, ifTruthy, liveHandle.
    destruct (connectedUsers w0 !! f) as [s|]; [|done].
    destruct (String.eqb s ""); [done|].
    unfold newDate, io_to_emit. by rewrite emits_one_tick. }
  clearbody callback. revert w. induction fs as [|f fs IH]; intros w.
  - simpl. unfold ret. by rewrite emits_nil.
  - rewrite forEach_cons, Hstep. unfold liveHandles. cbn [omap list_omap].
    destruct (liveHandle (connectedUsers w) f) as [s|]; [|apply IH].
    rewrite IH, emits_emits. cbn [imap length]. simpl.
    rewrite Nat.add_0_r. do 3 f_equal.
    apply imap_ext. intros i x _. simpl. do 3 f_equal. lia.
Qed.

(** ** Relations kept by every run of a handler *)

Section Preservation.
Variable R : World -> World -> Prop.
Hypothesis R_refl : forall w, R w w.
Hypothesis R_trans : forall w1 w2 w3, R w1 w2 -> R w2 w3 -> R w1 w3.

Lemma preserves_ret {A} (a : A) : preserves R (ret a).
Proof. intros w. apply R_refl. Qed.

Lemma preserves_throw {A} e : preserves R (@throw A e).
Proof. intros w. apply R_refl. Qed.

Lemma preserves_bind {A B} (m : M A) (k : A -> M B) :
  preserves R m -> (forall a, preserves R (k a)) -> preserves R (bind m k).
Proof.
  intros Hm Hk w. unfold bind. specialize (Hm w).
  destruct (m w) as [[a|e] w1]; simpl in *; [|done].
  eapply R_trans; [exact Hm|apply Hk].
Qed.

Lemma preserves_tryCatch {A} (m : M A) (h : Error -> M A) :
  preserves R m -> (forall e, preserves R (h e)) -> preserves R (tryCatch m h).
Proof.
  intros Hm Hh w. unfold tryCatch. specialize (Hm w).
  destruct (m w) as [[a|e] w1]; simpl in *; [done|].
  eapply R_trans; [exact Hm|apply Hh].
Qed.

Lemma preserves_forEach {A} (l : list A) (f : A -> M unit) :
  (forall x, preserves R (f x)) -> preserves R (forEach l f).
Proof.
  intros Hf. induction l as [|x l IH]; simpl.
  - apply preserves_ret.
  - apply preserves_bind; [apply Hf|intros ?; exact IH].
Qed.

Lemma preserves_ifTruthy v (k : string -> M unit) :
  (forall s, preserves R (k s)) -> preserves R (ifTruthy v k).
Proof.
  intros Hk. unfold ifTruthy. destruct v as [s|]; [|apply preserves_ret].
  destruct (String.eqb s ""); [apply preserves_ret|apply Hk].
Qed.

Lemma preserves_destructure {A} (data : option A) : preserves R (destructure data).
Proof. destruct data; [apply preserves_ret|apply preserves_throw]. Qed.
End Preservation.

(** Decompose a handler body down to its primitive operations; [leaf]
    closes the goals about those. *)
Ltac preserves_body Rrefl Rtrans leaf :=
  repeat first
    [ apply (preserves_bind _ Rtrans); [|intros ?]
    | apply (preserves_tryCatch _ Rtrans); [|intros ?]
    | apply (preserves_forEach _ Rrefl Rtrans); intros ?
    | apply (preserves_ifTruthy _ Rrefl); intros ?
    | apply (preserves_destructure _ Rrefl)
    | apply (preserves_ret _ Rrefl)
    | match goal with |- preserves _ (match ?x with _ => _ end) => destruct x end
    | match goal with |- preserves _ (if ?x then _ else _) => destruct x end
    | progress unfold User_findByIdAndUpdate, User_findById, User_updateOne,
        ChatMessage_create, populateSender, socket_emit
    | leaf ].











(** ** Single steps of the database operations *)

Ltac world_simpl :=
  cbn [connectedUsers listeners users messages friendRequests emitted logged clock
       ticks faults dbCalls set_connectedUsers set_listeners set_users set_messages
       set_friendRequests set_emitted set_logged set_ticks set_dbCalls emits fst snd].

Lemma findByIdAndUpdate_ok id upd w :
  faults w (dbCalls w) = false ->
  User_findByIdAndUpdate id upd w = (Returned tt, set_users (alter upd id) (set_dbCalls S w)).
Proof. intros H. unfold User_findByIdAndUpdate, bind, awaitDb. by rewrite H. Qed.

Lemma findByIdAndUpdate_fail id upd w :
  faults w (dbCalls w) = true ->
  User_findByIdAndUpdate id upd w = (Threw DbError, set_dbCalls S w).
Proof. intros H. unfold User_findByIdAndUpdate, bind, awaitDb. by rewrite H. Qed.

Lemma updateOne_ok id upd w :
  faults w (dbCalls w) = false ->
  User_updateOne id upd w = (Returned tt, set_users (alter upd id) (set_dbCalls S w)).
Proof. intros H. unfold User_updateOne, bind, awaitDb. by rewrite H. Qed.

Lemma findById_ok id w :
  faults w (dbCalls w) = false ->
  User_findById id w = (Returned (users w !! id), set_dbCalls S w).
Proof. intros H. unfold User_findById, bind, awaitDb. by rewrite H. Qed.

Lemma create_ok from to body w :
  faults w (dbCalls w) = false ->
  ChatMessage_create from to body w =
  (Returned {| sender := SenderId from; receiver := to; content := body;
               createdAt := clock w (ticks w) |},
   set_messages (fun l => l ++ [{| sender := SenderId from; receiver := to;
                                  content := body; createdAt := clock w (ticks w) |}])
     (set_ticks S (set_dbCalls S w))).
Proof. intros H. unfold ChatMessage_create, bind, awaitDb, newDate. by rewrite H. Qed.

Lemma create_fail from to body w :
  faults w (dbCalls w) = true ->
  ChatMessage_create from to body w = (Threw DbError, set_dbCalls S w).
Proof. intros H. unfold ChatMessage_create, bind, awaitDb. by rewrite H. Qed.

Lemma populateSender_ok from to body t w :
  faults w (dbCalls w) = false ->
  populateSender {| sender := SenderId from; receiver := to; content := body;
                    createdAt := t |} w =
  (Returned {| sender := SenderPopulated (senderInfo from <$> users w !! from);
               receiver := to; content := body; createdAt := t |},
   set_dbCalls S w).
Proof. intros H. unfold populateSender, bind, awaitDb. by rewrite H. Qed.

Lemma requestFindById_ok id w :
  faults w (dbCalls w) = false ->
  FriendRequest_findById id w = (Returned (friendRequests w !! id), set_dbCalls S w).
Proof. intros H. unfold FriendRequest_findById, bind, awaitDb. by rewrite H. Qed.

Lemma requestSave_ok id r w :
  faults w (dbCalls w) = false ->
  FriendRequest_save id r w =
  (Returned tt, set_friendRequests (insert id r) (set_dbCalls S w)).
Proof. intros H. unfold FriendRequest_save, bind, awaitDb. by rewrite H. Qed.

Lemma bind_Returned {A B} (m : M A) (k : A -> M B) w a w' :
  m w = (Returned a, w') -> bind m k w = k a w'.
Proof. intros H. unfold bind. by rewrite H. Qed.

Lemma bind_Threw {A B} (m : M A) (k : A -> M B) w e w' :
  m w = (Threw e, w') -> bind m k w = (Threw e, w').
Proof. intros H. unfold bind. by rewrite H. Qed.

Lemma tryCatch_Returned {A} (m : M A) (h : Error -> M A) w a w' :
  m w = (Returned a, w') -> tryCatch m h w = (Returned a, w').
Proof. intros H. unfold tryCatch. by rewrite H. Qed.

Lemma tryCatch_Threw {A} (m : M A) (h : Error -> M A) w e w' :
  m w = (Threw e, w') -> tryCatch m h w = h e w'.
Proof. intros H. unfold tryCatch. by rewrite H. Qed.

(** The result of the first operation of a sequence. *)
Ltac run_prim :=
  first
    [ apply findByIdAndUpdate_ok; world_simpl; assumption
    | apply findByIdAndUpdate_fail; world_simpl; assumption
    | apply updateOne_ok; world_simpl; assumption
    | apply findById_ok; world_simpl; assumption
    | apply create_ok; world_simpl; assumption
    | apply create_fail; world_simpl; assumption
    | apply populateSender_ok; world_simpl; assumption
    | apply requestFindById_ok; world_simpl; assumption
    | apply requestSave_ok; world_simpl; assumption
    | reflexivity ].

(** One step of a handler body: replace the first operation of a sequence
    by its result. *)
Ltac run_step :=
  first [ erewrite bind_Returned by run_prim | erewrite bind_Threw by run_prim ];
  world_simpl.

(** ** Runs of the presence handlers *)

Lemma guarded_forEach {A} (l : list A) (f : A -> M unit) :
  (if Nat.ltb 0 (length l) then forEach l f else ret tt) = forEach l f.
Proof. by destruct l. Qed.



Lemma onUpdateCurrentlyPlaying_run w socket d doc :
  faults w (dbCalls w) = false ->
  faults w (S (dbCalls w)) = false ->
  users w !! socket_user socket = Some doc ->
  exists w',
    onUpdateCurrentlyPlaying socket (Some d) w = (Returned tt, w') /\
    connectedUsers w' = connectedUsers w /\
    logged w' = logged w /\
    emitted w' = emitted w ++
      imap (fun i s => (s, FriendCurrentlyPlaying (socket_user socket) (pd_songId d)
                             (clock w (S (ticks w) + i)%nat)))
           (liveHandles (connectedUsers w) (friends doc)).
Proof.
  intros Hw Hr Hu.
  unfold onUpdateCurrentlyPlaying.
  erewrite tryCatch_Returned; [eexists; split; [reflexivity|]|].
  2: { do 4 run_step.
       rewrite lookup_alter_eq, Hu.
       cbn [fmap option_fmap option_map setCurrentlyPlaying friends].
       rewrite guarded_forEach. apply forEach_stamped. }
  by world_simpl.
Qed.

(** When the user has no stored document, or no friends, the presence
    handlers stop after the two database calls. *)
Lemma friendless_lookup (upd : UserDoc -> UserDoc) (us : gmap string UserDoc) userId
    (cb : string -> M unit) w :
  (forall u, friends (upd u) = friends u) ->
  us !! userId = None \/ (exists doc, us !! userId = Some doc /\ friends doc = []) ->
  match alter upd userId us !! userId with
  | Some user => if Nat.ltb 0 (length (friends user)) then forEach (friends user) cb else ret tt
  | None => ret tt
  end w = (Returned tt, w).
Proof.
  intros Hupd [H|(doc & H & Hf)]; rewrite lookup_alter_eq, H; simpl; [done|].
  by rewrite Hupd, Hf.
Qed.

(** ** Who receives a fan-out *)

Lemma fst_stamped (mk : nat -> string -> OutEvent) (hs : list string) :
  (imap (fun i s => (s, mk i s)) hs).*1 = hs.
Proof.
  revert mk. induction hs as [|h hs IH]; intros mk; [done|].
  cbn [imap fmap list_fmap]. simpl. f_equal. apply (IH (fun i => mk (S i))).
Qed.

Lemma elem_of_stamped (mk : nat -> string -> OutEvent) (hs : list string) s ev :
  (s, ev) ∈ imap (fun i s => (s, mk i s)) hs -> exists i, ev = mk i s /\ s ∈ hs.
Proof.
  intros Hin. apply elem_of_lookup_imap_1 in Hin as (i & h & Heq & Hlook).
  injection Heq as -> ->. exists i. split; [done|]. by eapply list_elem_of_lookup_2.
Qed.

(** A trace addressed to the handles of the connected friends, once each:
    every connected friend finds exactly one event, and every event is
    addressed to a connected friend. *)
Lemma fanout_once registry friendIds (new : list (string * OutEvent)) :
  NoDup friendIds -> handlesInjective registry ->
  new.*1 = liveHandles registry friendIds ->
  (forall f s, f ∈ friendIds -> liveHandle registry f = Some s ->
     exists ev, deliveredTo s new = [ev] /\ (s, ev) ∈ new) /\
  (forall s ev, (s, ev) ∈ new ->
     exists f, f ∈ friendIds /\ liveHandle registry f = Some s).
Proof.
  intros Hnd Hinj Hfst. split.
  - intros f s Hf Hs.
    assert (s ∈ new.*1) as Hin.
    { rewrite Hfst. apply elem_of_liveHandles. eauto. }
    apply list_elem_of_fmap in Hin as ([s' ev] & Heq & Hin). simpl in Heq. subst s'.
    exists ev. split; [|done]. apply deliveredTo_NoDup; [|done].
    rewrite Hfst. by apply liveHandles_NoDup.
  - intros s ev Hin. apply elem_of_liveHandles. rewrite <- Hfst.
    apply list_elem_of_fmap. by exists (s, ev).
Qed.


(** ** Direct messages *)

(** The document a successful [privateMessage] hands to both parties. *)
Lemma onPrivateMessage_run w socket d :
  faults w (dbCalls w) = false ->
  faults w (S (dbCalls w)) = false ->
  let stored := {| sender := SenderId (socket_user socket); receiver := md_receiverId d;
                   content := md_content d; createdAt := clock w (ticks w) |} in
  let message := {| sender := SenderPopulated
                                (senderInfo (socket_user socket) <$>
                                 users w !! socket_user socket);
                    receiver := md_receiverId d; content := md_content d;
                    createdAt := clock w (ticks w) |} in
  exists w',
    onPrivateMessage socket (Some d) w = (Returned tt, w') /\
    messages w' = messages w ++ [stored] /\
    logged w' = logged w /\
    emitted w' = emitted w ++
      match md_receiverId d ≫= liveHandle (connectedUsers w) with
      | Some room => [(room, NewMessage message)]
      | None => []
      end ++ [(socket_id socket, MessageSent message)].
Proof.
  intros Hc Hp stored message. unfold onPrivateMessage, liveHandle.
  destruct (md_receiverId d) as [r|] eqn:Hr; cbn [mbind option_bind];
    [destruct (connectedUsers w !! r) as [s|] eqn:Hs;
       [destruct (String.eqb s "") eqn:He|]|].
  all: erewrite tryCatch_Returned; [eexists; split; [reflexivity|]|].
  all: try (do 4 run_step; rewrite ?Hr, ?Hs; unfold ifTruthy, socket_emit;
            rewrite ?He; run_step; reflexivity).
  all: world_simpl; subst stored message; rewrite ?Hr, <- ?app_assoc; done.
Qed.

(** C1, with the condition the code needs.  A [privateMessage] from A to B
    while B has a live connection, the two database calls (storing the
    record and populating its sender) succeeding: the handler emits exactly
    [newMessage] to B's handle and [messageSent] to A's socket, both
    carrying the same
    document, whose content, receiver and timestamp are those of the
    stored record and whose sender is A. *)
Theorem message_to_connected_recipient
    (w : World) (socket : Socket) (d : MessageData) (recipient room : string) :
  faults w (dbCalls w) = false ->
  faults w (S (dbCalls w)) = false ->
  md_receiverId d = Some recipient ->
  liveHandle (connectedUsers w) recipient = Some room ->
  exists w' message,
    onPrivateMessage socket (Some d) w = (Returned tt, w') /\
    emitted w' = emitted w ++
      [(room, NewMessage message); (socket_id socket, MessageSent message)] /\
    content message = md_content d /\
    receiver message = Some recipient /\
    createdAt message = clock w (ticks w) /\
    sender message =
      SenderPopulated (senderInfo (socket_user socket) <$> users w !! socket_user socket).
Proof.
  intros Hc Hp Hrec Hlive.
  destruct (onPrivateMessage_run w socket d Hc Hp) as (w' & Hrun & _ & _ & Hem).
  rewrite Hrec in Hem. cbn [mbind option_bind] in Hem. rewrite Hlive in Hem.
  eexists w', _. split; [exact Hrun|]. split; [exact Hem|]. done.
Qed.

(** C6, with the condition the code needs.  A [privateMessage] from A to B
    while B has no live connection, the two database calls (storing the
    record and populating its sender) succeeding: the only event of the
    handler is [messageSent] to A's socket, and the record has been added to
    the
    stored messages. *)
Theorem message_to_disconnected_recipient
    (w : World) (socket : Socket) (d : MessageData) (recipient : string) :
  faults w (dbCalls w) = false ->
  faults w (S (dbCalls w)) = false ->
  md_receiverId d = Some recipient ->
  liveHandle (connectedUsers w) recipient = None ->
  exists w' message,
    onPrivateMessage socket (Some d) w = (Returned tt, w') /\
    emitted w' = emitted w ++ [(socket_id socket, MessageSent message)] /\
    content message = md_content d /\
    messages w' = messages w ++
      [{| sender := SenderId (socket_user socket); receiver := Some recipient;
          content := md_content d; createdAt := createdAt message |}].
Proof.
  intros Hc Hp Hrec Hlive.
  destruct (onPrivateMessage_run w socket d Hc Hp) as (w' & Hrun & Hmsg & _ & Hem).
  rewrite Hrec in Hem, Hmsg. cbn [mbind option_bind] in Hem. rewrite Hlive in Hem.
  eexists w', _. split; [exact Hrun|]. split; [exact Hem|]. split; [done|exact Hmsg].
Qed.

(** C3. When persisting the message fails, the handler emits one event,
    [messageError] to the sender's socket: no [newMessage], no
    [messageSent]; nothing is stored and the failure is logged. *)
Theorem message_persistence_failure (w : World) (socket : Socket) (d : MessageData) :
  faults w (dbCalls w) = true ->
  exists w',
    onPrivateMessage socket (Some d) w = (Returned tt, w') /\
    emitted w' = emitted w ++ [(socket_id socket, MessageError "Failed to send message")] /\
    messages w' = messages w /\
    logged w' = logged w ++ ["Error sending private message:"].
Proof.
  intros Hc. unfold onPrivateMessage.
  erewrite tryCatch_Threw by (run_step; run_step; reflexivity).
  run_step. eexists. split; [reflexivity|]. by world_simpl.
Qed.

(** ** The registry and the listeners under the handlers *)

Lemma sameRegistry_refl w : sameRegistry w w.
Proof. done. Qed.

Lemma sameRegistry_trans w1 w2 w3 :
  sameRegistry w1 w2 -> sameRegistry w2 w3 -> sameRegistry w1 w3.
Proof. unfold sameRegistry. congruence. Qed.

Lemma sameListeners_refl w : sameListeners w w.
Proof. done. Qed.

Lemma sameListeners_trans w1 w2 w3 :
  sameListeners w1 w2 -> sameListeners w2 w3 -> sameListeners w1 w3.
Proof. unfold sameListeners. congruence. Qed.

Ltac field_leaf :=
  let w := fresh "w" in
  intros w; unfold awaitDb; try destruct (faults w (dbCalls w)); reflexivity.

Lemma sameRegistry_onPrivateMessage socket data :
  preserves sameRegistry (onPrivateMessage socket data).
Proof.
  unfold onPrivateMessage.
  preserves_body sameRegistry_refl sameRegistry_trans field_leaf.
Qed.

Lemma sameRegistry_onTyping socket data : preserves sameRegistry (onTyping socket data).
Proof.
  unfold onTyping. preserves_body sameRegistry_refl sameRegistry_trans field_leaf.
Qed.

Lemma sameRegistry_onUpdateCurrentlyPlaying socket data :
  preserves sameRegistry (onUpdateCurrentlyPlaying socket data).
Proof.
  unfold onUpdateCurrentlyPlaying.
  preserves_body sameRegistry_refl sameRegistry_trans field_leaf.
Qed.



Lemma sameListeners_onUpdateCurrentlyPlaying socket data :
  preserves sameListeners (onUpdateCurrentlyPlaying socket data).
Proof.
  unfold onUpdateCurrentlyPlaying.
  preserves_body sameListeners_refl sameListeners_trans field_leaf.
Qed.


(** Whatever the database answers, the connection handler leaves the
    socket registered under its user. *)
Lemma onConnection_registry socket w :
  connectedUsers (snd (onConnection socket w)) =
  <[socket_user socket := socket_id socket]> (connectedUsers w).
Proof.
  unfold onConnection. erewrite bind_Returned by reflexivity.
  match goal with
  | |- connectedUsers (snd (?m ?w0)) = _ =>
      assert (preserves sameRegistry m) as H
        by preserves_body sameRegistry_refl sameRegistry_trans field_leaf;
      exact (H w0)
  end.
Qed.

(** Likewise the disconnect handler leaves the user unregistered. *)
Lemma onDisconnect_registry socket w :
  connectedUsers (snd (onDisconnect socket w)) =
  delete (socket_user socket) (connectedUsers w).
Proof.
  unfold onDisconnect. erewrite bind_Returned by reflexivity.
  match goal with
  | |- connectedUsers (snd (?m ?w0)) = _ =>
      assert (preserves sameRegistry m) as H
        by preserves_body sameRegistry_refl sameRegistry_trans field_leaf;
      exact (H w0)
  end.
Qed.


(** ** Failing or empty look-ups in the presence handlers *)

Lemma findById_fail id w :
  faults w (dbCalls w) = true ->
  User_findById id w = (Threw DbError, set_dbCalls S w).
Proof. intros H. unfold User_findById, bind, awaitDb. by rewrite H. Qed.

Lemma onUpdateCurrentlyPlaying_friendless w socket d :
  faults w (dbCalls w) = false ->
  faults w (S (dbCalls w)) = false ->
  users w !! socket_user socket = None \/
    (exists doc, users w !! socket_user socket = Some doc /\ friends doc = []) ->
  exists w', onUpdateCurrentlyPlaying socket (Some d) w = (Returned tt, w') /\
             emitted w' = emitted w /\ logged w' = logged w.
Proof.
  intros Hw Hr Hu. unfold onUpdateCurrentlyPlaying.
  erewrite tryCatch_Returned; [eexists; split; [reflexivity|]|].
  2: { do 4 run_step. by apply friendless_lookup. }
  by world_simpl.
Qed.

(** C10. In each of the three handlers with a fan-out, when the two
    database calls succeed but the user has no stored document, or has one
    with an empty friend list, the handler returns normally without
    emitting or logging anything. *)
Theorem no_fanout_without_friends (w : World) (socket : Socket) (d : PlayingData) :
  faults w (dbCalls w) = false ->
  faults w (S (dbCalls w)) = false ->
  users w !! socket_user socket = None \/
    (exists doc, users w !! socket_user socket = Some doc /\ friends doc = []) ->
  (exists w', onConnection socket w = (Returned tt, w') /\
              emitted w' = emitted w /\ logged w' = logged w) /\
  (exists w', onDisconnect socket w = (Returned tt, w') /\
              emitted w' = emitted w /\ logged w' = logged w) /\
  (exists w', onUpdateCurrentlyPlaying socket (Some d) w = (Returned tt, w') /\
              emitted w' = emitted w /\ logged w' = logged w).
Proof.
  intros Hw Hr Hu. repeat split.
  - unfold onConnection. do 4 run_step.
    erewrite bind_Returned by (by apply friendless_lookup).
    eexists. split; [reflexivity|]. by world_simpl.
  - unfold onDisconnect. do 4 run_step.
    rewrite friendless_lookup by done.
    eexists. split; [reflexivity|]. by world_simpl.
  - by apply onUpdateCurrentlyPlaying_friendless.
Qed.

(** C2, as the code has it.  When the write that opens a presence or
    now-playing handler fails, the fan-out does not take place: no
    notification is emitted by any of the three handlers.  The now-playing
    handler logs the failure and returns normally, the stored documents
    unchanged. *)
Theorem failed_write_skips_fanout (w : World) (socket : Socket) (d : PlayingData) :
  faults w (dbCalls w) = true ->
  emitted (snd (onConnection socket w)) = emitted w /\
  emitted (snd (onDisconnect socket w)) = emitted w /\
  (exists w', onUpdateCurrentlyPlaying socket (Some d) w = (Returned tt, w') /\
              emitted w' = emitted w /\
              logged w' = logged w ++ ["Error updating currently playing:"] /\
              users w' = users w).
Proof.
  intros Hw. repeat split.
  - unfold onConnection. do 3 run_step. reflexivity.
  - unfold onDisconnect. do 3 run_step. reflexivity.
  - unfold onUpdateCurrentlyPlaying.
    erewrite tryCatch_Threw by (do 3 run_step; reflexivity).
    eexists. split; [reflexivity|]. by world_simpl.
Qed.

(** Every event of a now-playing handler is a [friendCurrentlyPlaying]
    with the song of the payload, whatever the database answers. *)
Lemma onUpdateCurrentlyPlaying_events w socket d :
  exists w' new,
    onUpdateCurrentlyPlaying socket (Some d) w = (Returned tt, w') /\
    emitted w' = emitted w ++ new /\
    Forall (fun e => exists t,
              e.2 = FriendCurrentlyPlaying (socket_user socket) (pd_songId d) t) new.
Proof.
  destruct (faults w (dbCalls w)) eqn:Hw.
  { eexists _, []. split.
    - unfold onUpdateCurrentlyPlaying.
      erewrite tryCatch_Threw by (do 3 run_step; reflexivity). reflexivity.
    - split; [symmetry; apply app_nil_r|constructor]. }
  destruct (faults w (S (dbCalls w))) eqn:Hr.
  { eexists _, []. split.
    - unfold onUpdateCurrentlyPlaying.
      erewrite tryCatch_Threw
        by (do 3 run_step;
            erewrite bind_Threw by (apply findById_fail; world_simpl; assumption);
            reflexivity).
      reflexivity.
    - split; [symmetry; apply app_nil_r|constructor]. }
  destruct (users w !! socket_user socket) as [doc|] eqn:Hu.
  - destruct (onUpdateCurrentlyPlaying_run w socket d doc Hw Hr Hu)
      as (w' & Hrun & _ & _ & Hem).
    eexists w', _. split; [exact Hrun|]. split; [exact Hem|].
    apply Forall_forall. intros [s ev] Hin.
    apply (elem_of_stamped (fun i _ => FriendCurrentlyPlaying _ _ _)) in Hin as (i & -> & _).
    by eexists.
  - destruct (onUpdateCurrentlyPlaying_friendless w socket d Hw Hr (or_introl Hu))
      as (w' & Hrun & Hem & _).
    exists w', []. split; [exact Hrun|]. split; [by rewrite app_nil_r|constructor].
Qed.

(** C8, as the code has it.  A [typing] event whose payload lacks the
    recipient identifier is a no-op: the handler returns normally, emits
    nothing (no error event either) and leaves the whole state as it was.
    An [updateCurrentlyPlaying] event whose payload lacks the song
    identifier is handled like any other: the handler returns normally, all
    it emits are [friendCurrentlyPlaying] notifications without a song, and
    the registry and the listeners of all sockets stay as they were. *)
Theorem missing_field_no_error_event (w : World) (socket : Socket) :
  onTyping socket (Some {| td_receiverId := None |}) w = (Returned tt, w) /\
  exists w' new,
    onUpdateCurrentlyPlaying socket (Some {| pd_songId := None |}) w = (Returned tt, w') /\
    emitted w' = emitted w ++ new /\
    Forall (fun e => exists t,
              e.2 = FriendCurrentlyPlaying (socket_user socket) None t) new /\
    connectedUsers w' = connectedUsers w /\
    listeners w' = listeners w.
Proof.
  split; [reflexivity|].
  destruct (onUpdateCurrentlyPlaying_events w socket {| pd_songId := None |})
    as (w' & new & Hrun & Hem & Hall).
  exists w', new. split; [exact Hrun|]. split; [exact Hem|]. split; [exact Hall|].
  pose proof (sameRegistry_onUpdateCurrentlyPlaying socket
                (Some {| pd_songId := None |}) w) as Hreg.
  pose proof (sameListeners_onUpdateCurrentlyPlaying socket
                (Some {| pd_songId := None |}) w) as Hlis.
  rewrite Hrun in Hreg, Hlis. by split.
Qed.

Lemma findByIdAndUpdate_run id upd w :
  User_findByIdAndUpdate id upd w =
  if faults w (dbCalls w)
  then (Threw DbError, set_dbCalls S w)
  else (Returned tt, set_users (alter upd id) (set_dbCalls S w)).
Proof. unfold User_findByIdAndUpdate, bind, awaitDb. by destruct (faults w (dbCalls w)). Qed.

(** The outcome of the connection handler for every answer of the database. *)
Lemma onConnection_outcome (w : World) (socket : Socket) :
  let r := onConnection socket w in
  let failed := faults w (dbCalls w) || faults w (S (dbCalls w)) in
  fst r = (if failed then Threw DbError else Returned tt) /\
  listeners (snd r) = (if failed then listeners w else listeners w ++ handlersOf socket) /\
  connectedUsers (snd r) !! socket_user socket = Some (socket_id socket).
Proof.
  intros r failed. subst r failed.
  split; [|split; [|by rewrite onConnection_registry, lookup_insert_eq]].
  - unfold onConnection. do 2 run_step.
    destruct (faults w (dbCalls w)) eqn:Hw; cbn [orb].
    { by do 1 run_step. }
    run_step. destruct (faults w (S (dbCalls w))) eqn:Hr.
    { by erewrite bind_Threw by (apply findById_fail; world_simpl; assumption). }
    run_step. rewrite lookup_alter_eq.
    destruct (users w !! socket_user socket) as [doc|];
      cbn [fmap option_fmap option_map setPresence friends].
    + rewrite guarded_forEach. by erewrite bind_Returned by apply forEach_friendOnline.
    + by run_step.
  - unfold onConnection. do 2 run_step.
    destruct (faults w (dbCalls w)) eqn:Hw; cbn [orb].
    { by do 1 run_step. }
    run_step. destruct (faults w (S (dbCalls w))) eqn:Hr.
    { by erewrite bind_Threw by (apply findById_fail; world_simpl; assumption). }
    run_step. rewrite lookup_alter_eq.
    destruct (users w !! socket_user socket) as [doc|];
      cbn [fmap option_fmap option_map setPresence friends].
    + rewrite guarded_forEach. erewrite bind_Returned by apply forEach_friendOnline.
      unfold handlersOf. do 3 run_step. unfold socket_on. world_simpl.
      by rewrite <- !app_assoc.
    + run_step. unfold handlersOf. do 3 run_step. unfold socket_on. world_simpl.
      by rewrite <- !app_assoc.
Qed.

(** ** The disconnect of a connected socket *)





(** ** Accepting a friend request *)

Lemma elem_of_addToSet x l : x ∈ addToSet x l.
Proof.
  unfold addToSet. case_bool_decide; [done|]. apply elem_of_app. right. by left.
Qed.

Lemma addToSet_keeps x y l : y ∈ l -> y ∈ addToSet x l.
Proof.
  intros Hy. unfold addToSet. case_bool_decide; [done|]. apply elem_of_app. by left.
Qed.

Lemma addToSet_NoDup x l : NoDup l -> NoDup (addToSet x l).
Proof.
  intros Hnd. unfold addToSet. case_bool_decide; [done|].
  apply NoDup_app. split; [done|]. split; [|apply NoDup_singleton].
  intros y Hy Hin. apply list_elem_of_singleton in Hin. by subst.
Qed.

(** The stored documents after the two [updateOne] calls of the route. *)
Lemma friends_after_updates (us : gmap string UserDoc) a b da :
  us !! a = Some da ->
  exists da',
    alter (addToSetFriends a) b (alter (addToSetFriends b) a us) !! a = Some da' /\
    b ∈ friends da'.
Proof.
  intros Ha. destruct (decide (a = b)) as [<-|Hne].
  - rewrite !lookup_alter_eq, Ha. eexists. split; [reflexivity|].
    simpl. apply elem_of_addToSet.
  - rewrite lookup_alter_ne by done. rewrite lookup_alter_eq, Ha.
    eexists. split; [reflexivity|]. simpl. apply elem_of_addToSet.
Qed.

Lemma friends_after_updates_r (us : gmap string UserDoc) a b db :
  us !! b = Some db ->
  exists db',
    alter (addToSetFriends a) b (alter (addToSetFriends b) a us) !! b = Some db' /\
    a ∈ friends db'.
Proof.
  intros Hb. rewrite lookup_alter_eq.
  destruct (decide (a = b)) as [<-|Hne].
  - rewrite lookup_alter_eq, Hb. eexists. split; [reflexivity|].
    simpl. apply elem_of_addToSet.
  - rewrite lookup_alter_ne by done. rewrite Hb.
    eexists. split; [reflexivity|]. simpl. apply elem_of_addToSet.
Qed.

Lemma elem_of_addToSet_inv x y l : y ∈ addToSet x l -> y = x \/ y ∈ l.
Proof.
  unfold addToSet. case_bool_decide; [by right|].
  intros Hin. apply elem_of_app in Hin as [Hin|Hin]; [by right|].
  left. by apply list_elem_of_singleton in Hin.
Qed.

(** The friend lists after the two updates: the old ones, and the new
    edge in both directions. *)
Lemma friends_after_updates_inv (us : gmap string UserDoc) a b x y dx' :
  alter (addToSetFriends a) b (alter (addToSetFriends b) a us) !! x = Some dx' ->
  y ∈ friends dx' ->
  (exists dx, us !! x = Some dx /\ y ∈ friends dx) \/
  (x = a /\ y = b) \/ (x = b /\ y = a).
Proof.
  intros Hlook Hin.
  destruct (decide (x = b)) as [->|Hxb].
  - rewrite lookup_alter_eq in Hlook.
    destruct (decide (b = a)) as [->|Hba].
    + rewrite lookup_alter_eq in Hlook.
      destruct (us !! a) as [d|]; [|done]. injection Hlook as <-. simpl in Hin.
      apply elem_of_addToSet_inv in Hin as [->|Hin]; [by right; left|].
      apply elem_of_addToSet_inv in Hin as [->|Hin]; [by right; left|].
      left. by exists d.
    + rewrite lookup_alter_ne in Hlook by done.
      destruct (us !! b) as [d|]; [|done]. injection Hlook as <-. simpl in Hin.
      apply elem_of_addToSet_inv in Hin as [->|Hin]; [by right; right|].
      left. by exists d.
  - rewrite lookup_alter_ne in Hlook by done.
    destruct (decide (x = a)) as [->|Hxa].
    + rewrite lookup_alter_eq in Hlook.
      destruct (us !! a) as [d|]; [|done]. injection Hlook as <-. simpl in Hin.
      apply elem_of_addToSet_inv in Hin as [->|Hin]; [by right; left|].
      left. by exists d.
    + rewrite lookup_alter_ne in Hlook by done. left. by exists dx'.
Qed.

Lemma friends_after_updates_keeps (us : gmap string UserDoc) a b x y dx :
  us !! x = Some dx -> y ∈ friends dx ->
  exists dx',
    alter (addToSetFriends a) b (alter (addToSetFriends b) a us) !! x = Some dx' /\
    y ∈ friends dx'.
Proof.
  intros Hlook Hin.
  destruct (decide (x = b)) as [->|Hxb]; [rewrite lookup_alter_eq|rewrite lookup_alter_ne by done];
    (destruct (decide (x = a)) as [->|Hxa] || destruct (decide (b = a)) as [->|Hxa]);
    rewrite ?lookup_alter_eq; rewrite ?lookup_alter_ne by done; rewrite Hlook;
    eexists; (split; [reflexivity|]); simpl; auto using addToSet_keeps.
Qed.

(** An accepted request keeps the friend relation undirected. *)
Lemma symmetricFriends_accept (us : gmap string UserDoc) a b :
  is_Some (us !! a) -> is_Some (us !! b) ->
  symmetricFriends us ->
  symmetricFriends (alter (addToSetFriends a) b (alter (addToSetFriends b) a us)).
Proof.
  intros [da0 Ha] [db0 Hb] Hsym x y dx' dy' Hx Hy Hin.
  destruct (friends_after_updates_inv us a b x y dx' Hx Hin)
    as [(dx & Hdx & Hyx)|[[-> ->]|[-> ->]]].
  - assert (exists dy, us !! y = Some dy) as [dy Hdy].
    { destruct (us !! y) as [dy|] eqn:Hdy; [by eauto|]. exfalso.
      assert (alter (addToSetFriends a) b (alter (addToSetFriends b) a us) !! y = None)
        as Hnone by (by rewrite !lookup_alter_None).
      congruence. }
    pose proof (Hsym x y dx dy Hdx Hdy Hyx) as Hxy.
    destruct (friends_after_updates_keeps us a b y x dy Hdy Hxy) as (dy2 & Hdy2 & Hin2).
    rewrite Hy in Hdy2. by injection Hdy2 as ->.
  - destruct (friends_after_updates_r us a b db0 Hb) as (d & Hd & Hind).
    rewrite Hy in Hd. by injection Hd as ->.
  - destruct (friends_after_updates us a b da0 Ha) as (d & Hd & Hind).
    rewrite Hy in Hd. by injection Hd as ->.
Qed.

Lemma acceptRequest_run w reqUser requestId request :
  friendRequests w !! requestId = Some request ->
  fr_receiver request = reqUser ->
  faults w (dbCalls w) = false ->
  faults w (1 + dbCalls w)%nat = false ->
  faults w (2 + dbCalls w)%nat = false ->
  faults w (3 + dbCalls w)%nat = false ->
  exists w',
    acceptRequest reqUser requestId w =
      (Returned {| status := 200; body := "Friend request accepted" |}, w') /\
    users w' = alter (addToSetFriends (fr_sender request)) (fr_receiver request)
                 (alter (addToSetFriends (fr_receiver request)) (fr_sender request)
                    (users w)) /\
    friendRequests w' = <[requestId := setStatus Accepted request]> (friendRequests w).
Proof.
  intros Hreq Hrecv H0 H1 H2 H3. unfold acceptRequest.
  erewrite tryCatch_Returned; [eexists; split; [reflexivity|]|].
  2: { run_step. rewrite Hreq, Hrecv, String.eqb_refl. cbn [negb].
       rewrite <- Hrecv. do 3 run_step. reflexivity. }
  by world_simpl.
Qed.

(** C9. When the receiver of a friend request accepts it (the four
    database calls of the route succeed and both users have a stored
    document), the route answers 200, the request is marked accepted, the
    receiver is in the sender's friend list and the sender is in the
    receiver's friend list: each is a friend of the other. *)
Theorem accepted_request_links_both_ways
    (w : World) (requestId : string) (request : FriendRequest) :
  let A := fr_sender request in
  let B := fr_receiver request in
  friendRequests w !! requestId = Some request ->
  is_Some (users w !! A) ->
  is_Some (users w !! B) ->
  faults w (dbCalls w) = false ->
  faults w (1 + dbCalls w)%nat = false ->
  faults w (2 + dbCalls w)%nat = false ->
  faults w (3 + dbCalls w)%nat = false ->
  exists w' docA docB,
    acceptRequest B requestId w =
      (Returned {| status := 200; body := "Friend request accepted" |}, w') /\
    fr_status <$> friendRequests w' !! requestId = Some Accepted /\
    users w' !! A = Some docA /\
    users w' !! B = Some docB /\
    B ∈ friends docA /\
    A ∈ friends docB /\
    (A ∈ friends docB <-> B ∈ friends docA).
Proof.
  intros A B Hreq [da Ha] [db Hb] H0 H1 H2 H3.
  destruct (acceptRequest_run w B requestId request Hreq eq_refl H0 H1 H2 H3)
    as (w' & Hrun & Hus & Hfr).
  destruct (friends_after_updates (users w) A B da Ha) as (docA & HA & HinA).
  destruct (friends_after_updates_r (users w) A B db Hb) as (docB & HB & HinB).
  exists w', docA, docB. rewrite Hus, Hfr, lookup_insert_eq. done.
Qed.

(** ** Invariants behind the hypotheses of the fan-out properties *)

Lemma handlesInjective_empty : handlesInjective ∅.
Proof. intros u1 u2 s H. by rewrite lookup_empty in H. Qed.

Lemma handlesInjective_insert registry userId s :
  handlesInjective registry ->
  (forall u, u <> userId -> registry !! u <> Some s) ->
  handlesInjective (<[userId := s]> registry).
Proof.
  intros Hinj Hfresh u1 u2 s' H1 H2.
  destruct (decide (u1 = userId)) as [->|Hn1]; destruct (decide (u2 = userId)) as [->|Hn2].
  - done.
  - rewrite lookup_insert_eq in H1. rewrite lookup_insert_ne in H2 by done.
    injection H1 as <-. by destruct (Hfresh u2 Hn2).
  - rewrite lookup_insert_eq in H2. rewrite lookup_insert_ne in H1 by done.
    injection H2 as <-. by destruct (Hfresh u1 Hn1).
  - rewrite lookup_insert_ne in H1, H2 by done. by eapply Hinj.
Qed.

Lemma handlesInjective_delete registry userId :
  handlesInjective registry -> handlesInjective (delete userId registry).
Proof.
  intros Hinj u1 u2 s H1 H2.
  apply lookup_delete_Some in H1 as [_ H1]. apply lookup_delete_Some in H2 as [_ H2].
  by eapply Hinj.
Qed.

Lemma friendSets_alter (upd : UserDoc -> UserDoc) id us :
  (forall d, NoDup (friends d) -> NoDup (friends (upd d))) ->
  friendSets us -> friendSets (alter upd id us).
Proof.
  intros Hupd Hinv u doc Hlook.
  destruct (decide (id = u)) as [->|Hne].
  - rewrite lookup_alter_eq in Hlook.
    destruct (us !! u) as [d|] eqn:Hd; [|done]. injection Hlook as <-.
    apply Hupd. by eapply Hinv.
  - rewrite lookup_alter_ne in Hlook by done. by eapply Hinv.
Qed.

Lemma keepsFriendSets_refl w : keepsFriendSets w w.
Proof. by intros H. Qed.

Lemma keepsFriendSets_trans w1 w2 w3 :
  keepsFriendSets w1 w2 -> keepsFriendSets w2 w3 -> keepsFriendSets w1 w3.
Proof. unfold keepsFriendSets. auto. Qed.

Ltac friendSets_leaf :=
  let w := fresh "w" in
  let H := fresh "H" in
  intros w H; unfold awaitDb; try destruct (faults w (dbCalls w)); simpl;
  first
    [ exact H
    | apply friendSets_alter; [|exact H]; intros d Hd; simpl;
      first [exact Hd | by apply addToSet_NoDup] ].

(** The only writer of friend lists uses [$addToSet]: accepting a request
    keeps every friend list duplicate-free, however the route ends. *)
Lemma friendSets_acceptRequest reqUser requestId :
  preserves keepsFriendSets (acceptRequest reqUser requestId).
Proof.
  unfold acceptRequest, FriendRequest_findById, FriendRequest_save.
  preserves_body keepsFriendSets_refl keepsFriendSets_trans friendSets_leaf.
Qed.

(** The relay never touches a friend list. *)
Lemma friendSets_dispatch ev w : keepsFriendSets w (dispatch ev w).
Proof.
  destruct ev; simpl;
    try match goal with |- context [if ?b then _ else _] => destruct b end;
    try apply keepsFriendSets_refl;
    match goal with |- keepsFriendSets ?w0 (snd (?m ?w0)) =>
      assert (preserves keepsFriendSets m) as Hm; [|exact (Hm w0)]
    end;
    unfold onConnection, onPrivateMessage, onTyping, onUpdateCurrentlyPlaying,
      onDisconnect;
    preserves_body keepsFriendSets_refl keepsFriendSets_trans friendSets_leaf.
Qed.

(** Socket ids being fresh, distinct users never share a handle. *)
Lemma handlesInjective_dispatch ev w :
  freshConnection ev w ->
  handlesInjective (connectedUsers w) ->
  handlesInjective (connectedUsers (dispatch ev w)).
Proof.
  intros Hfresh Hinj. destruct ev; simpl in *;
    try match goal with |- context [if ?b then _ else _] => destruct b end;
    try exact Hinj.
  - rewrite onConnection_registry. by apply handlesInjective_insert.
  - by rewrite (sameRegistry_onPrivateMessage socket data w).
  - by rewrite (sameRegistry_onTyping socket data w).
  - by rewrite (sameRegistry_onUpdateCurrentlyPlaying socket data w).
  - rewrite onDisconnect_registry. by apply handlesInjective_delete.
Qed.

(** ** The properties at work on the example world *)

Lemma handlesInjective_bob : handlesInjective {[ "bob" := "sB" ]}.
Proof.
  intros u1 u2 s H1 H2.
  apply lookup_singleton_Some in H1 as [<- _]. by apply lookup_singleton_Some in H2 as [<- _].
Qed.

Lemma message_to_connected_recipient_witness :
  exists w' message,
    onPrivateMessage socketAlice
      (Some {| md_receiverId := Some "bob"; md_content := Some "hi" |})
      (exampleWorld noFault) = (Returned tt, w') /\
    emitted w' = [("sB", NewMessage message); ("sA", MessageSent message)] /\
    content message = Some "hi" /\
    receiver message = Some "bob" /\
    createdAt message = 100 /\
    sender message =
      SenderPopulated (senderInfo "alice" <$> users (exampleWorld noFault) !! "alice").
Proof.
  apply (message_to_connected_recipient (exampleWorld noFault) socketAlice
           {| md_receiverId := Some "bob"; md_content := Some "hi" |} "bob" "sB");
    reflexivity.
Defined.

Lemma message_to_disconnected_recipient_witness :
  exists w' message,
    onPrivateMessage socketAlice
      (Some {| md_receiverId := Some "carol"; md_content := Some "hi" |})
      (exampleWorld noFault) = (Returned tt, w') /\
    emitted w' = [("sA", MessageSent message)] /\
    content message = Some "hi" /\
    messages w' =
      [{| sender := SenderId "alice"; receiver := Some "carol"; content := Some "hi";
          createdAt := createdAt message |}].
Proof.
  apply (message_to_disconnected_recipient (exampleWorld noFault) socketAlice
           {| md_receiverId := Some "carol"; md_content := Some "hi" |} "carol");
    reflexivity.
Defined.

Lemma message_persistence_failure_witness :
  exists w',
    onPrivateMessage socketAlice
      (Some {| md_receiverId := Some "bob"; md_content := Some "hi" |})
      (exampleWorld firstCallFails) = (Returned tt, w') /\
    emitted w' = [("sA", MessageError "Failed to send message")] /\
    messages w' = [] /\
    logged w' = ["Error sending private message:"].
Proof.
  apply (message_persistence_failure (exampleWorld firstCallFails) socketAlice
           {| md_receiverId := Some "bob"; md_content := Some "hi" |});
    reflexivity.
Defined.


Lemma accepted_request_links_both_ways_witness :
  exists w' docA docB,
    acceptRequest "bob" "r1" (exampleWorld noFault) =
      (Returned {| status := 200; body := "Friend request accepted" |}, w') /\
    fr_status <$> friendRequests w' !! "r1" = Some Accepted /\
    users w' !! "carol" = Some docA /\
    users w' !! "bob" = Some docB /\
    "bob" ∈ friends docA /\
    "carol" ∈ friends docB /\
    ("carol" ∈ friends docB <-> "bob" ∈ friends docA).
Proof.
  apply (accepted_request_links_both_ways (exampleWorld noFault) "r1"
           {| fr_sender := "carol"; fr_receiver := "bob"; fr_status := Pending |});
    try reflexivity; by eexists.
Defined.

Lemma no_fanout_without_friends_witness :
  (exists w', onConnection socketCarol (exampleWorld noFault) = (Returned tt, w') /\
              emitted w' = [] /\ logged w' = []) /\
  (exists w', onDisconnect socketCarol (exampleWorld noFault) = (Returned tt, w') /\
              emitted w' = [] /\ logged w' = []) /\
  (exists w', onUpdateCurrentlyPlaying socketCarol (Some {| pd_songId := Some "song1" |})
                (exampleWorld noFault) = (Returned tt, w') /\
              emitted w' = [] /\ logged w' = []).
Proof.
  apply (no_fanout_without_friends (exampleWorld noFault) socketCarol
           {| pd_songId := Some "song1" |}).
  - reflexivity.
  - reflexivity.
  - right. exists (mkUser "carol" []). split; reflexivity.
Defined.

Lemma failed_write_skips_fanout_witness :
  emitted (snd (onConnection socketAlice (exampleWorld firstCallFails))) = [] /\
  emitted (snd (onDisconnect socketAlice (exampleWorld firstCallFails))) = [] /\
  (exists w', onUpdateCurrentlyPlaying socketAlice (Some {| pd_songId := Some "song1" |})
                (exampleWorld firstCallFails) = (Returned tt, w') /\
              emitted w' = [] /\
              logged w' = ["Error updating currently playing:"] /\
              users w' = users (exampleWorld firstCallFails)).
Proof.
  apply (failed_write_skips_fanout (exampleWorld firstCallFails) socketAlice
           {| pd_songId := Some "song1" |}).
  reflexivity.
Defined.

(** C2 fails as stated.  Alice changes her track while Bob, her friend, is
    connected; the write fails.  The failure is logged, but Bob receives
    nothing. *)
Lemma failed_write_counterexample :
  let w := exampleWorld firstCallFails in
  let w' := snd (onUpdateCurrentlyPlaying socketAlice
                   (Some {| pd_songId := Some "song1" |}) w) in
  faults w (dbCalls w) = true /\
  users w !! "alice" = Some (mkUser "alice" ["bob"; "carol"]) /\
  liveHandle (connectedUsers w) "bob" = Some "sB" /\
  logged w' = ["Error updating currently playing:"] /\
  ~ (exists ev, ("sB", ev) ∈ emitted w').
Proof.
  repeat split. intros [ev Hin]. by apply elem_of_nil in Hin.
Qed.

(** C8 fails as stated.  Alice sends a [typing] event without recipient
    identifier: the handler returns, and no event at all is delivered to
    her connection, so no error event either. *)
Lemma missing_recipient_counterexample :
  let w := exampleWorld noFault in
  let r := onTyping socketAlice (Some {| td_receiverId := None |}) w in
  fst r = Returned tt /\
  emitted (snd r) = [] /\
  ~ (exists ev, (socket_id socketAlice, ev) ∈ emitted (snd r)).
Proof.
  repeat split. intros [ev Hin]. by apply elem_of_nil in Hin.
Qed.


(** C1 fails as stated.  Alice sends Bob a message while Bob is connected.
    The record is stored, but populating its sender fails: Bob receives no
    [newMessage] and Alice no [messageSent]; the only event is a
    [messageError] to Alice. *)
Lemma unpopulated_message_counterexample :
  let w := exampleWorld secondCallFails in
  let r := onPrivateMessage socketAlice
             (Some {| md_receiverId := Some "bob"; md_content := Some "hi" |}) w in
  liveHandle (connectedUsers w) "bob" = Some "sB" /\
  fst r = Returned tt /\
  emitted (snd r) = [("sA", MessageError "Failed to send message")] /\
  ~ (exists m, ("sB", NewMessage m) ∈ emitted (snd r)) /\
  ~ (exists m, ("sA", MessageSent m) ∈ emitted (snd r)).
Proof.
  intros w r.
  assert (emitted (snd r) = [("sA", MessageError "Failed to send message")]) as Hem
    by reflexivity.
  split; [reflexivity|]. split; [reflexivity|]. split; [exact Hem|].
  split; intros [m Hin]; rewrite Hem in Hin; apply list_elem_of_singleton in Hin;
    discriminate.
Qed.

(** C6 fails as stated.  Alice sends Carol a message while Carol is not
    connected.  The record is stored, but populating its sender fails:
    Alice receives a [messageError] and no [messageSent]. *)
Lemma unacknowledged_message_counterexample :
  let w := exampleWorld secondCallFails in
  let r := onPrivateMessage socketAlice
             (Some {| md_receiverId := Some "carol"; md_content := Some "hi" |}) w in
  liveHandle (connectedUsers w) "carol" = None /\
  fst r = Returned tt /\
  messages (snd r) =
    [{| sender := SenderId "alice"; receiver := Some "carol"; content := Some "hi";
        createdAt := 100 |}] /\
  emitted (snd r) = [("sA", MessageError "Failed to send message")] /\
  ~ (exists m, ("sA", MessageSent m) ∈ emitted (snd r)).
Proof.
  intros w r.
  assert (emitted (snd r) = [("sA", MessageError "Failed to send message")]) as Hem
    by reflexivity.
  split; [reflexivity|]. split; [reflexivity|]. split; [reflexivity|]. split; [exact Hem|].
  intros [m Hin]. rewrite Hem in Hin. apply list_elem_of_singleton in Hin. discriminate.
Qed.



(** * Further properties of the relay *)

(** X1. The typing relay.  When the recipient named in the payload has a
    live connection, the handler emits one [userTyping] carrying the
    sender's id to the recipient's handle; otherwise it emits nothing.  In
    both cases it returns normally, makes no database call and leaves the
    registry, the stored users and messages and the log untouched. *)
Theorem typing_relay (w : World) (socket : Socket) (d : TypingData) :
  exists w',
    onTyping socket (Some d) w = (Returned tt, w') /\
    emitted w' = emitted w ++
      match td_receiverId d ≫= liveHandle (connectedUsers w) with
      | Some room => [(room, UserTyping (socket_user socket))]
      | None => []
      end /\
    connectedUsers w' = connectedUsers w /\
    users w' = users w /\
    messages w' = messages w /\
    logged w' = logged w /\
    dbCalls w' = dbCalls w.
Proof.
  unfold onTyping, liveHandle. do 2 run_step.
  destruct (td_receiverId d) as [r|]; cbn [mbind option_bind];
    [destruct (connectedUsers w !! r) as [s|]; [destruct (String.eqb s "") eqn:He|]|];
    unfold ifTruthy; rewrite ?He;
    (eexists; split; [reflexivity|]); world_simpl; by rewrite ?app_nil_r.
Qed.

(** X2. The now-playing fan-out.  When the two database calls succeed, the
    handler stores the song and the time [t0] it read, and every friend with
    a live connection receives exactly one event,
    [friendCurrentlyPlaying] with the user, the song and a timestamp that
    is not earlier than [t0] (each notification reads the clock anew);
    every event of the handler is addressed to such a friend. *)
Theorem playback_notifies_connected_friends
    (w : World) (socket : Socket) (d : PlayingData) (doc : UserDoc) :
  let userId := socket_user socket in
  let t0 := clock w (ticks w) in
  monotoneClock w ->
  faults w (dbCalls w) = false ->
  faults w (S (dbCalls w)) = false ->
  users w !! userId = Some doc ->
  NoDup (friends doc) ->
  handlesInjective (connectedUsers w) ->
  exists w' new,
    onUpdateCurrentlyPlaying socket (Some d) w = (Returned tt, w') /\
    users w' = alter (setCurrentlyPlaying (pd_songId d) t0) userId (users w) /\
    emitted w' = emitted w ++ new /\
    (forall f s, f ∈ friends doc -> liveHandle (connectedUsers w) f = Some s ->
       exists t, deliveredTo s new = [FriendCurrentlyPlaying userId (pd_songId d) t] /\
                 t0 <= t) /\
    (forall s ev, (s, ev) ∈ new ->
       exists f, f ∈ friends doc /\ liveHandle (connectedUsers w) f = Some s).
Proof.
  intros userId t0 Hmono Hw Hr Hu Hnd Hinj. subst userId t0.
  assert (exists w',
    onUpdateCurrentlyPlaying socket (Some d) w = (Returned tt, w') /\
    users w' = alter (setCurrentlyPlaying (pd_songId d) (clock w (ticks w))) (socket_user socket) (users w) /\
    emitted w' = emitted w ++
      imap (fun i s => (s, FriendCurrentlyPlaying (socket_user socket) (pd_songId d)
                             (clock w (S (ticks w) + i)%nat)))
           (liveHandles (connectedUsers w) (friends doc))) as (w' & Hrun & Hus & Hem).
  { unfold onUpdateCurrentlyPlaying.
    erewrite tryCatch_Returned; [eexists; split; [reflexivity|]|].
    2: { do 4 run_step. rewrite lookup_alter_eq, Hu.
         cbn [fmap option_fmap option_map setCurrentlyPlaying friends].
         rewrite guarded_forEach. apply forEach_stamped. }
    by world_simpl. }
  eexists w', _. split; [exact Hrun|]. split; [exact Hus|]. split; [exact Hem|].
  match type of Hem with _ = _ ++ ?l => set (new := l) in * end.
  assert (new.*1 = liveHandles (connectedUsers w) (friends doc)) as Hfst.
  { unfold new. apply (fst_stamped (fun i _ => FriendCurrentlyPlaying _ _ _)). }
  destruct (fanout_once _ (friends doc) new Hnd Hinj Hfst) as [Hone Hall].
  split; [|exact Hall].
  intros f s Hf Hs. destruct (Hone f s Hf Hs) as (ev & Hdel & Hin).
  unfold new in Hin.
  apply (elem_of_stamped (fun i _ => FriendCurrentlyPlaying _ _ _)) in Hin as (i & -> & _).
  eexists. split; [exact Hdel|]. apply Hmono. lia.
Qed.

(** X3. Presence is persisted around a session.  When a user connects and
    then disconnects and the four database calls succeed, the stored
    document ends with [isOnline = false] and a [lastSeen] that is the
    clock reading of the disconnect, not earlier than the one stored at the
    connection; the friend list is untouched and the user has left the
    registry. *)
Theorem session_presence (w : World) (socket : Socket) (doc : UserDoc) :
  let userId := socket_user socket in
  monotoneClock w ->
  users w !! userId = Some doc ->
  faults w (dbCalls w) = false ->
  faults w (1 + dbCalls w)%nat = false ->
  faults w (2 + dbCalls w)%nat = false ->
  faults w (3 + dbCalls w)%nat = false ->
  exists w1 w2 doc1 doc2,
    onConnection socket w = (Returned tt, w1) /\
    onDisconnect socket w1 = (Returned tt, w2) /\
    users w1 !! userId = Some doc1 /\
    isOnline doc1 = true /\ lastSeen doc1 = clock w (ticks w) /\
    users w2 !! userId = Some doc2 /\
    isOnline doc2 = false /\ lastSeen doc1 <= lastSeen doc2 /\
    friends doc2 = friends doc /\
    connectedUsers w2 !! userId = None.
Proof.
  intros userId Hmono Hu H0 H1 H2 H3. subst userId.
  assert (exists w1,
    onConnection socket w = (Returned tt, w1) /\
    users w1 = alter (setPresence true (clock w (ticks w))) (socket_user socket) (users w) /\
    clock w1 = clock w /\ ticks w1 = S (ticks w) /\ faults w1 = faults w /\
    dbCalls w1 = (2 + dbCalls w)%nat) as (w1 & Hrun1 & Hus1 & Hc1 & Ht1 & Hf1 & Hd1).
  { unfold onConnection. do 4 run_step. rewrite lookup_alter_eq, Hu.
    cbn [fmap option_fmap option_map setPresence friends].
    rewrite guarded_forEach. erewrite bind_Returned by apply forEach_friendOnline.
    eexists. split; [reflexivity|]. world_simpl. repeat split; lia. }
  assert (exists w2,
    onDisconnect socket w1 = (Returned tt, w2) /\
    users w2 = alter (setPresence false (clock w1 (ticks w1))) (socket_user socket) (users w1) /\
    connectedUsers w2 = delete (socket_user socket) (connectedUsers w1)) as (w2 & Hrun2 & Hus2 & Hreg2).
  { assert (faults w1 (dbCalls w1) = false) as Ha by (by rewrite Hf1, Hd1).
    assert (faults w1 (S (dbCalls w1)) = false) as Hb by (by rewrite Hf1, Hd1).
    unfold onDisconnect. do 4 run_step.
    rewrite lookup_alter_eq, Hus1, lookup_alter_eq, Hu.
    cbn [fmap option_fmap option_map setPresence friends].
    rewrite guarded_forEach, forEach_stamped.
    eexists. split; [reflexivity|]. world_simpl. by rewrite Hus1. }
  exists w1, w2. eexists _, _. split; [exact Hrun1|]. split; [exact Hrun2|].
  rewrite Hus2, Hus1, Hreg2, !lookup_alter_eq, Hu, lookup_delete_eq.
  cbn [fmap option_fmap option_map setPresence isOnline lastSeen friends].
  repeat split. rewrite Hc1, Ht1. apply Hmono. lia.
Qed.


Lemma dispatch_registry_other ev w other :
  other <> socket_user (eventSocket ev) ->
  connectedUsers (dispatch ev w) !! other = connectedUsers w !! other.
Proof.
  intros Hne. destruct ev; simpl in *;
    try match goal with |- context [if ?b then _ else _] => destruct b end;
    try reflexivity.
  - by rewrite onConnection_registry, lookup_insert_ne.
  - by rewrite (sameRegistry_onPrivateMessage socket data w).
  - by rewrite (sameRegistry_onTyping socket data w).
  - by rewrite (sameRegistry_onUpdateCurrentlyPlaying socket data w).
  - by rewrite onDisconnect_registry, lookup_delete_ne.
Qed.

(** X5. An event touches the registry entry of its own user only: whatever
    events of other users' sockets are processed, and whatever the database
    answers, a user's registry entry stays what it was. *)
Theorem registry_entry_of_others_kept (evs : list InEvent) (w : World) (userId : string) :
  Forall (fun ev => socket_user (eventSocket ev) <> userId) evs ->
  connectedUsers (run evs w) !! userId = connectedUsers w !! userId.
Proof.
  intros Hall. revert w. induction Hall as [|ev evs Hev _ IH]; intros w; simpl.
  - reflexivity.
  - unfold run in IH. rewrite IH. by apply dispatch_registry_other.
Qed.

(** X6. The connection handler registers its four listeners last, after
    the awaited database calls.  They are installed exactly when both calls
    succeed; when either rejects, the handler ends with that rejection and
    the socket has no listener, while its user is in the registry all the
    same. *)
Theorem listeners_installed_iff_database_answers (w : World) (socket : Socket) :
  let r := onConnection socket w in
  let failed := faults w (dbCalls w) || faults w (S (dbCalls w)) in
  fst r = (if failed then Threw DbError else Returned tt) /\
  listeners (snd r) = (if failed then listeners w else listeners w ++ handlersOf socket) /\
  connectedUsers (snd r) !! socket_user socket = Some (socket_id socket).
Proof. exact (onConnection_outcome w socket). Qed.

Lemma dispatch_deaf ev w :
  isSocketEvent ev = true ->
  (forall name, (socket_id (eventSocket ev), name) ∉ listeners w) ->
  dispatch ev w = w.
Proof.
  intros Hev Hdeaf. destruct ev; [done|..]; simpl in *; unfold listening;
    rewrite bool_decide_eq_false_2; auto.
Qed.

(** X7. A socket whose connection handler met a database failure is deaf.
    If the socket had no listener before, every later event it sends
    (messages, typing, playback, and its disconnect) is dropped without any
    effect, so its user's registry entry is never removed by it. *)
Theorem failed_connection_leaves_socket_deaf
    (w : World) (socket : Socket) (evs : list InEvent) :
  let w' := snd (onConnection socket w) in
  faults w (dbCalls w) || faults w (S (dbCalls w)) = true ->
  (forall name, (socket_id socket, name) ∉ listeners w) ->
  Forall (fun ev => isSocketEvent ev = true /\
                    socket_id (eventSocket ev) = socket_id socket) evs ->
  run evs w' = w' /\
  connectedUsers (run evs w') !! socket_user socket = Some (socket_id socket).
Proof.
  intros w' Hfail Hdeaf Hall.
  destruct (onConnection_outcome w socket) as (_ & Hlis & Hreg).
  fold w' in Hlis, Hreg. rewrite Hfail in Hlis.
  assert (run evs w' = w') as Hrun.
  { clear Hreg. induction Hall as [|ev evs [Hev Hid] _ IH]; [done|].
    simpl. rewrite dispatch_deaf; [exact IH|exact Hev|].
    intros name. rewrite Hid, Hlis. apply Hdeaf. }
  by rewrite Hrun.
Qed.

Lemma appendOnly_refl w : appendOnly w w.
Proof. by repeat split. Qed.

Lemma appendOnly_trans w1 w2 w3 : appendOnly w1 w2 -> appendOnly w2 w3 -> appendOnly w1 w3.
Proof.
  intros (H1 & H2 & H3) (H4 & H5 & H6).
  repeat split; etrans; eassumption.
Qed.

Ltac appendOnly_leaf :=
  let w := fresh "w" in
  intros w; unfold awaitDb; try destruct (faults w (dbCalls w));
  (repeat split; simpl; first [reflexivity | by apply prefix_app_r]).

Lemma appendOnly_dispatch ev w : appendOnly w (dispatch ev w).
Proof.
  destruct ev; simpl;
    try match goal with |- context [if ?b then _ else _] => destruct b end;
    try apply appendOnly_refl;
    match goal with |- appendOnly ?w0 (snd (?m ?w0)) =>
      assert (preserves appendOnly m) as Hm; [|exact (Hm w0)]
    end;
    unfold onConnection, onPrivateMessage, onTyping, onUpdateCurrentlyPlaying,
      onDisconnect, socket_on, console_error, io_to_emit;
    preserves_body appendOnly_refl appendOnly_trans appendOnly_leaf.
Qed.

(** X8. The relay only ever appends: whatever events are processed and
    whatever the database answers, the stored messages, the events already
    emitted and the log lines already written stay in place, in order, at
    the front of the later ones.  No handler deletes or rewrites a
    message. *)
Theorem relay_is_append_only (evs : list InEvent) (w : World) :
  messages w `prefix_of` messages (run evs w) /\
  emitted w `prefix_of` emitted (run evs w) /\
  logged w `prefix_of` logged (run evs w).
Proof.
  change (appendOnly w (run evs w)).
  revert w. induction evs as [|ev evs IH]; intros w; simpl.
  - apply appendOnly_refl.
  - eapply appendOnly_trans; [apply appendOnly_dispatch|apply IH].
Qed.

Lemma sameGraph_refl w : sameGraph w w.
Proof. by split. Qed.

Lemma sameGraph_trans w1 w2 w3 : sameGraph w1 w2 -> sameGraph w2 w3 -> sameGraph w1 w3.
Proof.
  intros [H1 H2] [H3 H4]. split; [|congruence].
  intros u. by rewrite H3, H1.
Qed.

Lemma friends_alter_presence (upd : UserDoc -> UserDoc) id (us : gmap string UserDoc) u :
  (forall d, friends (upd d) = friends d) ->
  friends <$> alter upd id us !! u = friends <$> us !! u.
Proof.
  intros Hupd. destruct (decide (id = u)) as [->|Hne].
  - rewrite lookup_alter_eq. destruct (us !! u); simpl; by rewrite ?Hupd.
  - by rewrite lookup_alter_ne.
Qed.

Ltac sameGraph_leaf :=
  let w := fresh "w" in
  intros w; unfold awaitDb; try destruct (faults w (dbCalls w));
  (split; simpl; [|reflexivity]; intros ?;
   first [reflexivity | by apply friends_alter_presence]).

Lemma sameGraph_dispatch ev w : sameGraph w (dispatch ev w).
Proof.
  destruct ev; simpl;
    try match goal with |- context [if ?b then _ else _] => destruct b end;
    try apply sameGraph_refl;
    match goal with |- sameGraph ?w0 (snd (?m ?w0)) =>
      assert (preserves sameGraph m) as Hm; [|exact (Hm w0)]
    end;
    unfold onConnection, onPrivateMessage, onTyping, onUpdateCurrentlyPlaying,
      onDisconnect;
    preserves_body sameGraph_refl sameGraph_trans sameGraph_leaf.
Qed.

(** X9. The relay reads the social graph and never writes it: whatever
    events are processed and whatever the database answers, no user
    document is created or deleted, every friend list is what it was, and
    the friend requests are unchanged.  Presence and now-playing updates
    touch other fields only. *)
Theorem relay_keeps_social_graph (evs : list InEvent) (w : World) (userId : string) :
  friends <$> users (run evs w) !! userId = friends <$> users w !! userId /\
  (is_Some (users (run evs w) !! userId) <-> is_Some (users w !! userId)) /\
  friendRequests (run evs w) = friendRequests w.
Proof.
  assert (sameGraph w (run evs w)) as [Hf Hr].
  { revert w. induction evs as [|ev evs IH]; intros w; simpl.
    - apply sameGraph_refl.
    - eapply sameGraph_trans; [apply sameGraph_dispatch|apply IH]. }
  split; [apply Hf|]. split; [|exact Hr].
  specialize (Hf userId). rewrite <- !fmap_is_Some with (f := friends). by rewrite Hf.
Qed.

(** X10. A message can be stored and still fail.  When the record is
    created but loading the sender's display fields is rejected, the
    handler emits [messageError] to the sender and nothing else: the
    recipient gets no [newMessage] even if connected, the sender no
    [messageSent], yet the record stays among the stored messages. *)
Theorem populate_failure_after_store (w : World) (socket : Socket) (d : MessageData) :
  faults w (dbCalls w) = false ->
  faults w (S (dbCalls w)) = true ->
  exists w',
    onPrivateMessage socket (Some d) w = (Returned tt, w') /\
    emitted w' = emitted w ++ [(socket_id socket, MessageError "Failed to send message")] /\
    messages w' = messages w ++
      [{| sender := SenderId (socket_user socket); receiver := md_receiverId d;
          content := md_content d; createdAt := clock w (ticks w) |}] /\
    logged w' = logged w ++ ["Error sending private message:"].
Proof.
  intros Hc Hp. unfold onPrivateMessage.
  assert (forall from to body t w0,
    faults w0 (dbCalls w0) = true ->
    populateSender {| sender := SenderId from; receiver := to; content := body;
                      createdAt := t |} w0 = (Threw DbError, set_dbCalls S w0)) as Hpop.
  { intros from to body t w0 H. unfold populateSender, bind, awaitDb. by rewrite H. }
  erewrite tryCatch_Threw
    by (do 2 run_step; erewrite bind_Threw by (apply Hpop; world_simpl; assumption);
        reflexivity).
  run_step. eexists. split; [reflexivity|]. by world_simpl.
Qed.

(** X11. Events without payload.  A [privateMessage] emitted without
    argument is answered with [messageError] (nothing is stored, no
    database call is made); an [updateCurrentlyPlaying] without argument is
    only logged; a [typing] without argument raises a TypeError that
    nothing catches, leaving the state as it was. *)
Theorem events_without_payload (w : World) (socket : Socket) :
  (exists w', onPrivateMessage socket None w = (Returned tt, w') /\
     emitted w' = emitted w ++ [(socket_id socket, MessageError "Failed to send message")] /\
     messages w' = messages w /\ dbCalls w' = dbCalls w) /\
  (exists w', onUpdateCurrentlyPlaying socket None w = (Returned tt, w') /\
     emitted w' = emitted w /\ users w' = users w /\
     logged w' = logged w ++ ["Error updating currently playing:"]) /\
  onTyping socket None w = (Threw TypeError, w).
Proof.
  repeat split; eexists; (split; [reflexivity|]); done.
Qed.

(** * Further properties of the friends router *)


Lemma awaitDb_fail {A} (k : M A) w :
  faults w (dbCalls w) = true ->
  bind awaitDb (fun _ => k) w = (Threw DbError, set_dbCalls S w).
Proof. intros H. unfold bind, awaitDb. by rewrite H. Qed.

Lemma requestFindById_fail id w :
  faults w (dbCalls w) = true ->
  FriendRequest_findById id w = (Threw DbError, set_dbCalls S w).
Proof. apply awaitDb_fail. Qed.


(** The state after an accepted request, field by field. *)
Lemma acceptRequest_state w requestId request :
  friendRequests w !! requestId = Some request ->
  faults w (dbCalls w) = false ->
  faults w (1 + dbCalls w)%nat = false ->
  faults w (2 + dbCalls w)%nat = false ->
  faults w (3 + dbCalls w)%nat = false ->
  exists w',
    acceptRequest (fr_receiver request) requestId w =
      (Returned {| status := 200; body := "Friend request accepted" |}, w') /\
    users w' = alter (addToSetFriends (fr_sender request)) (fr_receiver request)
                 (alter (addToSetFriends (fr_receiver request)) (fr_sender request)
                    (users w)) /\
    friendRequests w' = <[requestId := setStatus Accepted request]> (friendRequests w) /\
    faults w' = faults w /\ dbCalls w' = (4 + dbCalls w)%nat /\
    connectedUsers w' = connectedUsers w /\ clock w' = clock w /\ ticks w' = ticks w.
Proof.
  intros Hreq H0 H1 H2 H3. unfold acceptRequest.
  erewrite tryCatch_Returned; [eexists; split; [reflexivity|]|].
  2: { run_step. rewrite Hreq, String.eqb_refl. cbn [negb].
       do 3 run_step. reflexivity. }
  by world_simpl.
Qed.









(** X17. Friend lists stay sets.  However the accept route ends (accepted,
    refused, or failed half-way), a store whose friend lists are free of
    duplicates is left with friend lists free of duplicates. *)
Theorem accept_keeps_friend_lists_sets (w : World) (caller requestId : string) :
  friendSets (users w) ->
  friendSets (users (snd (acceptRequest caller requestId w))).
Proof. apply friendSets_acceptRequest. Qed.

(** X18. An accepted request keeps the friend relation undirected: if
    before it every user was listed by the friends listed in the user's own
    document, and the sender and the receiver have a document, the same is
    true after the route has answered 200. *)
Theorem accept_keeps_friendship_undirected
    (w : World) (requestId : string) (request : FriendRequest) :
  friendRequests w !! requestId = Some request ->
  is_Some (users w !! fr_sender request) ->
  is_Some (users w !! fr_receiver request) ->
  symmetricFriends (users w) ->
  (forall n, (n < 4)%nat -> faults w (n + dbCalls w)%nat = false) ->
  exists w',
    acceptRequest (fr_receiver request) requestId w =
      (Returned {| status := 200; body := "Friend request accepted" |}, w') /\
    symmetricFriends (users w').
Proof.
  intros Hreq HA HB Hsym Hok.
  destruct (acceptRequest_state w requestId request Hreq)
    as (w' & Hrun & Hus & _); try (apply (Hok 0%nat); lia);
    try (apply (Hok 1%nat); lia); try (apply (Hok 2%nat); lia);
    try (apply (Hok 3%nat); lia).
  exists w'. split; [exact Hrun|]. rewrite Hus. by apply symmetricFriends_accept.
Qed.


Lemma findOne_fail query w :
  faults w (dbCalls w) = true ->
  FriendRequest_findOne query w = (Threw DbError, set_dbCalls S w).
Proof. apply awaitDb_fail. Qed.


Lemma requestCreate_fail initialStatus newId from to w :
  faults w (dbCalls w) = true ->
  FriendRequest_create initialStatus newId from to w = (Threw DbError, set_dbCalls S w).
Proof. intros H. unfold FriendRequest_create. by rewrite awaitDb_fail. Qed.












(** * Properties of the song routes *)

Lemma lbind_Returned {A B} (m : SongRoutes.L A) (k : A -> SongRoutes.L B) s a s' :
  m s = (Returned a, s') -> SongRoutes.lbind m k s = k a s'.
Proof. intros H. unfold SongRoutes.lbind. by rewrite H. Qed.

Lemma lbind_Threw {A B} (m : SongRoutes.L A) (k : A -> SongRoutes.L B) s e s' :
  m s = (Threw e, s') -> SongRoutes.lbind m k s = (Threw e, s').
Proof. intros H. unfold SongRoutes.lbind. by rewrite H. Qed.

Lemma ltry_Returned {A} (m : SongRoutes.L A) h s a s' :
  m s = (Returned a, s') -> SongRoutes.ltry m h s = (Returned a, s').
Proof. intros H. unfold SongRoutes.ltry. by rewrite H. Qed.

Lemma ltry_Threw {A} (m : SongRoutes.L A) h s e s' :
  m s = (Threw e, s') -> SongRoutes.ltry m h s = h e s'.
Proof. intros H. unfold SongRoutes.ltry. by rewrite H. Qed.

Lemma awaitLib_ok {A} (k : SongRoutes.L A) s :
  SongRoutes.libFaults s (SongRoutes.libCalls s) = false ->
  SongRoutes.lbind SongRoutes.awaitLib (fun _ => k) s = k (SongRoutes.set_libCalls S s).
Proof. intros H. unfold SongRoutes.lbind, SongRoutes.awaitLib. by rewrite H. Qed.

Lemma awaitLib_fail {A} (k : SongRoutes.L A) s :
  SongRoutes.libFaults s (SongRoutes.libCalls s) = true ->
  SongRoutes.lbind SongRoutes.awaitLib (fun _ => k) s =
  (Threw DbError, SongRoutes.set_libCalls S s).
Proof. intros H. unfold SongRoutes.lbind, SongRoutes.awaitLib. by rewrite H. Qed.

Ltac lib_simpl :=
  cbn [SongRoutes.songs SongRoutes.likedSongs SongRoutes.libLogged SongRoutes.libFaults
       SongRoutes.libCalls SongRoutes.set_songs SongRoutes.set_likedSongs
       SongRoutes.set_libLogged SongRoutes.set_libCalls fst snd].

Ltac lib_unfold :=
  unfold SongRoutes.Song_findById, SongRoutes.Song_create, SongRoutes.Song_findByIdAndDelete,
    SongRoutes.User_findLiked, SongRoutes.User_updateLiked, SongRoutes.User_pullFromAll.

(** The result of one database call of a song route. *)
Ltac lib_prim :=
  first
    [ lib_unfold; rewrite awaitLib_ok by (lib_simpl; assumption); reflexivity
    | lib_unfold; rewrite awaitLib_fail by (lib_simpl; assumption); reflexivity
    | reflexivity ].

Ltac lib_step :=
  first [ erewrite lbind_Returned by lib_prim | erewrite lbind_Threw by lib_prim ];
  lib_simpl.

Lemma some_equal_spec songId l : SongRoutes.some_equal songId l = true <-> songId ∈ l.
Proof.
  unfold SongRoutes.some_equal. rewrite existsb_exists. split.
  - intros (x & Hin & Heq). apply String.eqb_eq in Heq. subst. by apply list_elem_of_In.
  - intros Hin. exists songId. split; [by apply list_elem_of_In|apply String.eqb_refl].
Qed.

Lemma elem_of_pull songId x l : x ∈ SongRoutes.pull songId l <-> x ∈ l /\ x <> songId.
Proof. unfold SongRoutes.pull. rewrite list_elem_of_filter. tauto. Qed.

Lemma isLiked_run s reqUser songId liked :
  SongRoutes.likedSongs s !! reqUser = Some liked ->
  SongRoutes.libFaults s (SongRoutes.libCalls s) = false ->
  SongRoutes.isLiked reqUser songId s =
    (Returned (Json (SongRoutes.some_equal songId liked)), SongRoutes.set_libCalls S s).
Proof.
  intros Hliked H0. unfold SongRoutes.isLiked.
  erewrite ltry_Returned; [reflexivity|]. lib_step. by rewrite Hliked.
Qed.

Lemma pull_absent songId l : songId ∉ l -> SongRoutes.pull songId l = l.
Proof.
  intros Hnot. unfold SongRoutes.pull. induction l as [|x l IH]; [done|].
  apply not_elem_of_cons in Hnot as [Hne Hnot].
  rewrite filter_cons_True by done. by rewrite IH.
Qed.

(** ** Liking and unliking *)

Lemma updateLiked_alter (m : gmap string (list string)) reqUser liked f :
  m !! reqUser = Some liked ->
  alter f reqUser m = <[reqUser := f liked]> m.
Proof.
  intros Hliked. apply map_eq. intros u. destruct (decide (reqUser = u)) as [->|Hu].
  - by rewrite lookup_alter_eq, lookup_insert_eq, Hliked.
  - by rewrite lookup_alter_ne, lookup_insert_ne.
Qed.

(** The outcome of [POST /like] when the database answers: the song is
    looked up and pushed under the id the request string casts to, and
    whether it is pushed depends on the request string as it was sent. *)
Lemma like_run castId s reqUser request id song liked :
  request <> "" ->
  castId request = Some id ->
  SongRoutes.songs s !! id = Some song ->
  SongRoutes.likedSongs s !! reqUser = Some liked ->
  (forall n, (n < 3)%nat -> SongRoutes.libFaults s (n + SongRoutes.libCalls s)%nat = false) ->
  exists s',
    SongRoutes.like castId reqUser (Some request) s =
      (Returned {| status := 200; body := "Song liked successfully" |}, s') /\
    SongRoutes.likedSongs s' =
      (if bool_decide (request ∈ liked) then SongRoutes.likedSongs s
       else <[reqUser := liked ++ [id]]> (SongRoutes.likedSongs s)) /\
    SongRoutes.songs s' = SongRoutes.songs s /\
    SongRoutes.libFaults s' = SongRoutes.libFaults s /\
    SongRoutes.libCalls s' =
      ((if bool_decide (request ∈ liked) then 2 else 3) + SongRoutes.libCalls s)%nat.
Proof.
  intros Hne Hcast Hsong Hliked Hok.
  assert (SongRoutes.libFaults s (SongRoutes.libCalls s) = false) as H0
    by (apply (Hok 0%nat); lia).
  assert (SongRoutes.libFaults s (S (SongRoutes.libCalls s)) = false) as H1
    by (apply (Hok 1%nat); lia).
  assert (SongRoutes.libFaults s (S (S (SongRoutes.libCalls s))) = false) as H2
    by (apply (Hok 2%nat); lia).
  unfold SongRoutes.like, SongRoutes.Song_findByRequestId, SongRoutes.User_updateLikedWith.
  cbn [SongRoutes.falsy SongRoutes.theString].
  rewrite (proj2 (String.eqb_neq _ _) Hne), Hcast.
  destruct (SongRoutes.some_equal request liked) eqn:Hsome.
  - assert (request ∈ liked) as Hin by (by apply some_equal_spec).
    rewrite bool_decide_eq_true_2 by done.
    erewrite ltry_Returned; [eexists; split; [reflexivity|]|].
    2: { lib_step. rewrite Hsong. lib_step. rewrite Hliked, Hsome. reflexivity. }
    by lib_simpl.
  - assert (request ∉ liked) as Hin
      by (intros Hin; apply some_equal_spec in Hin; congruence).
    rewrite bool_decide_eq_false_2 by done.
    erewrite ltry_Returned; [eexists; split; [reflexivity|]|].
    2: { lib_step. rewrite Hsong. lib_step. rewrite Hliked, Hsome. cbn [negb].
         lib_step. rewrite Hliked. reflexivity. }
    lib_simpl. split; [|done]. by apply (updateLiked_alter _ _ liked).
Qed.

Lemma unlike_run castId s reqUser request id liked :
  request <> "" ->
  castId request = Some id ->
  SongRoutes.likedSongs s !! reqUser = Some liked ->
  SongRoutes.libFaults s (SongRoutes.libCalls s) = false ->
  SongRoutes.libFaults s (S (SongRoutes.libCalls s)) = false ->
  exists s',
    SongRoutes.unlike castId reqUser (Some request) s =
      (Returned {| status := 200; body := "Song unliked successfully" |}, s') /\
    SongRoutes.likedSongs s' =
      <[reqUser := SongRoutes.pull id liked]> (SongRoutes.likedSongs s) /\
    SongRoutes.songs s' = SongRoutes.songs s /\
    SongRoutes.libFaults s' = SongRoutes.libFaults s /\
    SongRoutes.libCalls s' = S (S (SongRoutes.libCalls s)).
Proof.
  intros Hne Hcast Hliked H0 H1.
  unfold SongRoutes.unlike, SongRoutes.User_updateLikedWith.
  cbn [SongRoutes.falsy SongRoutes.theString].
  rewrite (proj2 (String.eqb_neq _ _) Hne), Hcast.
  erewrite ltry_Returned; [eexists; split; [reflexivity|]|].
  2: { lib_step. rewrite Hliked. lib_step. rewrite Hliked. reflexivity. }
  lib_simpl. split; [|done]. by apply (updateLiked_alter _ _ liked).
Qed.

(** X25. A like sent in another spelling of the id is pushed a second
    time.  The request string casts to the stored id of a song that the
    user has liked, but is not itself among the stored ids (say, the same
    hexadecimal digits in upper case).  The database answering, [POST /like]
    finds the song, does not find the string among the liked songs, and
    pushes the id: the user's liked songs then list the song twice; and
    [GET /is-liked] with the same string still answers that the song is not
    liked. *)
Theorem respelled_like_is_pushed_twice
    (castId : string -> option string) (s : SongRoutes.Library)
    (reqUser request id : string) (song : SongRoutes.Song) (liked : list string) :
  request <> "" ->
  castId request = Some id ->
  SongRoutes.songs s !! id = Some song ->
  SongRoutes.likedSongs s !! reqUser = Some liked ->
  id ∈ liked ->
  request ∉ liked ->
  (forall n, (n < 4)%nat -> SongRoutes.libFaults s (n + SongRoutes.libCalls s)%nat = false) ->
  exists s1 s2,
    SongRoutes.like castId reqUser (Some request) s =
      (Returned {| status := 200; body := "Song liked successfully" |}, s1) /\
    SongRoutes.likedSongs s1 !! reqUser = Some (liked ++ [id]) /\
    ~ NoDup (liked ++ [id]) /\
    SongRoutes.isLiked reqUser request s1 = (Returned (Json false), s2).
Proof.
  intros Hne Hcast Hsong Hliked Hid Hreq Hok.
  destruct (like_run castId s reqUser request id song liked Hne Hcast Hsong Hliked)
    as (s1 & Hrun1 & Hl1 & _ & Hf1 & Hc1); [intros n Hn; apply Hok; lia|].
  rewrite bool_decide_eq_false_2 in Hl1, Hc1 by done.
  assert (SongRoutes.likedSongs s1 !! reqUser = Some (liked ++ [id])) as Hliked1
    by (by rewrite Hl1, lookup_insert_eq).
  pose proof (isLiked_run s1 reqUser request _ Hliked1) as Hrun2.
  assert (SongRoutes.some_equal request (liked ++ [id]) = false) as Hnot.
  { destruct (SongRoutes.some_equal _ _) eqn:Hs; [|done].
    apply some_equal_spec, elem_of_app in Hs as [Hs|Hs]; [done|].
    apply list_elem_of_singleton in Hs. by subst. }
  rewrite Hnot in Hrun2.
  exists s1, (SongRoutes.set_libCalls S s1).
  split; [exact Hrun1|]. split; [exact Hliked1|]. split.
  - intros Hnd. apply NoDup_app in Hnd as (_ & Hdisj & _).
    apply (Hdisj id Hid). by left.
  - apply Hrun2. rewrite Hf1, Hc1. apply (Hok 3%nat). lia.
Qed.

(** X26. Like and unlike round trip.  For a stored song and a stored user,
    the request carrying the song's id in its stored spelling (the string
    casts to itself), each request sent after the answer to the one before
    and the database answering: after [POST /like] the song is reported as
    liked by [GET /is-liked], whether or not it was liked before; after
    [POST /unlike] it is reported as not liked, and the other liked songs
    of the user are the ones from before, in their order. *)
Theorem like_unlike_round_trip
    (castId : string -> option string) (s : SongRoutes.Library)
    (reqUser songId : string) (song : SongRoutes.Song) (liked : list string) :
  songId <> "" ->
  castId songId = Some songId ->
  SongRoutes.songs s !! songId = Some song ->
  SongRoutes.likedSongs s !! reqUser = Some liked ->
  (forall n, (n < 7)%nat -> SongRoutes.libFaults s (n + SongRoutes.libCalls s)%nat = false) ->
  exists s1 s2 s3 s4,
    SongRoutes.like castId reqUser (Some songId) s =
      (Returned {| status := 200; body := "Song liked successfully" |}, s1) /\
    SongRoutes.isLiked reqUser songId s1 = (Returned (Json true), s2) /\
    SongRoutes.unlike castId reqUser (Some songId) s2 =
      (Returned {| status := 200; body := "Song unliked successfully" |}, s3) /\
    SongRoutes.isLiked reqUser songId s3 = (Returned (Json false), s4) /\
    SongRoutes.likedSongs s4 !! reqUser = Some (SongRoutes.pull songId liked).
Proof.
  intros Hne Hcast Hsong Hliked Hok.
  destruct (like_run castId s reqUser songId songId song liked Hne Hcast Hsong Hliked)
    as (s1 & Hrun1 & Hl1 & _ & Hf1 & Hc1); [intros n Hn; apply Hok; lia|].
  set (k := if bool_decide (songId ∈ liked) then 2%nat else 3%nat) in *.
  assert (k <= 3)%nat as Hk by (unfold k; case_bool_decide; lia).
  assert (exists liked1, SongRoutes.likedSongs s1 !! reqUser = Some liked1 /\
            songId ∈ liked1 /\ SongRoutes.pull songId liked1 = SongRoutes.pull songId liked)
    as (liked1 & Hliked1 & Hin1 & Hpull1).
  { rewrite Hl1. case_bool_decide as Hin.
    - exists liked. by rewrite Hliked.
    - exists (liked ++ [songId]). rewrite lookup_insert_eq. split; [done|].
      split; [apply elem_of_app; right; by left|].
      unfold SongRoutes.pull. rewrite filter_app, filter_cons_False, filter_nil by tauto.
      apply app_nil_r. }
  pose proof (isLiked_run s1 reqUser songId liked1 Hliked1) as Hrun2.
  rewrite (proj2 (some_equal_spec songId liked1) Hin1) in Hrun2.
  set (s2 := SongRoutes.set_libCalls S s1) in *.
  destruct (unlike_run castId s2 reqUser songId songId liked1 Hne Hcast Hliked1)
    as (s3 & Hrun3 & Hl3 & _ & Hf3 & Hc3);
    [unfold s2; lib_simpl; rewrite Hf1, Hc1;
     replace (S (k + SongRoutes.libCalls s)) with (S k + SongRoutes.libCalls s)%nat by lia;
     apply Hok; lia
    |unfold s2; lib_simpl; rewrite Hf1, Hc1;
     replace (S (S (k + SongRoutes.libCalls s))) with (S (S k) + SongRoutes.libCalls s)%nat
       by lia;
     apply Hok; lia|].
  assert (SongRoutes.likedSongs s3 !! reqUser = Some (SongRoutes.pull songId liked)) as Hliked3
    by (by rewrite Hl3, lookup_insert_eq, Hpull1).
  pose proof (isLiked_run s3 reqUser songId _ Hliked3) as Hrun4.
  assert (SongRoutes.some_equal songId (SongRoutes.pull songId liked) = false) as Hgone.
  { destruct (SongRoutes.some_equal _ _) eqn:Hs; [|done].
    apply some_equal_spec, elem_of_pull in Hs. tauto. }
  rewrite Hgone in Hrun4.
  exists s1, s2, s3, (SongRoutes.set_libCalls S s3).
  split; [exact Hrun1|]. split.
  { apply Hrun2. rewrite Hf1, Hc1. apply Hok. lia. }
  split; [exact Hrun3|]. split; [|exact Hliked3].
  apply Hrun4. rewrite Hf3, Hc3. unfold s2. lib_simpl. rewrite Hf1, Hc1.
  replace (S (S (S (k + SongRoutes.libCalls s))))
    with (S (S (S k)) + SongRoutes.libCalls s)%nat by lia.
  apply Hok. lia.
Qed.

(** X27. Deleting a song.  When its artist deletes a stored song and the
    three database calls succeed, the route answers 200, the song is gone
    from the store, every user's liked songs are the former ones without
    it, and all other songs are untouched; liked songs that all were stored
    songs are still all stored songs. *)
Theorem owner_deletes_song
    (s : SongRoutes.Library) (reqUser songId : string) (song : SongRoutes.Song) :
  songId <> "" ->
  SongRoutes.songs s !! songId = Some song ->
  SongRoutes.song_artist song = Some reqUser ->
  (forall n, (n < 3)%nat -> SongRoutes.libFaults s (n + SongRoutes.libCalls s)%nat = false) ->
  exists s',
    SongRoutes.deleteSong reqUser songId s =
      (Returned {| status := 200; body := "Song deleted successfully" |}, s') /\
    SongRoutes.songs s' = delete songId (SongRoutes.songs s) /\
    (forall u, SongRoutes.likedSongs s' !! u =
               SongRoutes.pull songId <$> SongRoutes.likedSongs s !! u) /\
    (SongRoutes.likedExist s -> SongRoutes.likedExist s').
Proof.
  intros Hne Hsong Hartist Hok.
  assert (SongRoutes.libFaults s (SongRoutes.libCalls s) = false) as H0
    by (apply (Hok 0%nat); lia).
  assert (SongRoutes.libFaults s (S (SongRoutes.libCalls s)) = false) as H1
    by (apply (Hok 1%nat); lia).
  assert (SongRoutes.libFaults s (S (S (SongRoutes.libCalls s))) = false) as H2
    by (apply (Hok 2%nat); lia).
  unfold SongRoutes.deleteSong. rewrite (proj2 (String.eqb_neq _ _) Hne).
  erewrite ltry_Returned; [eexists; split; [reflexivity|]|].
  2: { lib_step. rewrite Hsong. unfold SongRoutes.artistString. rewrite Hartist.
       lib_step. rewrite String.eqb_refl. cbn [negb]. lib_step. rewrite Hsong.
       lib_step. reflexivity. }
  lib_simpl. split; [done|].
  assert (forall u,
    ((fun l => if bool_decide (songId ∈ l) then SongRoutes.pull songId l else l)
       <$> SongRoutes.likedSongs s) !! u =
    SongRoutes.pull songId <$> SongRoutes.likedSongs s !! u) as Hpull.
  { intros u. rewrite lookup_fmap. destruct (SongRoutes.likedSongs s !! u) as [l|]; [|done].
    simpl. case_bool_decide; [done|]. by rewrite pull_absent. }
  split; [exact Hpull|].
  intros Hexist u l id Hlook Hin. lib_simpl. rewrite Hpull in Hlook.
  destruct (SongRoutes.likedSongs s !! u) as [l0|] eqn:Hl0; [|done].
  injection Hlook as <-. apply elem_of_pull in Hin as [Hin Hid].
  rewrite lookup_delete_ne by done. by eapply Hexist.
Qed.


(** X29. Deleting is not atomic.  When the song has been deleted and the
    clean-up of the liked songs is rejected, the route answers 500 with the
    song gone and every user's liked songs as they were: whoever liked the
    song keeps a reference to a song that no longer exists. *)
Theorem delete_can_leave_dangling_likes
    (s : SongRoutes.Library) (reqUser songId fan : string) (song : SongRoutes.Song)
    (liked : list string) :
  songId <> "" ->
  SongRoutes.songs s !! songId = Some song ->
  SongRoutes.song_artist song = Some reqUser ->
  SongRoutes.likedSongs s !! fan = Some liked ->
  songId ∈ liked ->
  SongRoutes.libFaults s (SongRoutes.libCalls s) = false ->
  SongRoutes.libFaults s (1 + SongRoutes.libCalls s)%nat = false ->
  SongRoutes.libFaults s (2 + SongRoutes.libCalls s)%nat = true ->
  exists s',
    SongRoutes.deleteSong reqUser songId s =
      (Returned {| status := 500; body := "Internal server error" |}, s') /\
    SongRoutes.songs s' !! songId = None /\
    SongRoutes.likedSongs s' = SongRoutes.likedSongs s /\
    ~ SongRoutes.likedExist s'.
Proof.
  intros Hne Hsong Hartist Hfan Hin H0 H1 H2.
  unfold SongRoutes.deleteSong. rewrite (proj2 (String.eqb_neq _ _) Hne).
  erewrite ltry_Threw.
  2: { lib_step. rewrite Hsong. unfold SongRoutes.artistString. rewrite Hartist.
       lib_step. rewrite String.eqb_refl. cbn [negb]. lib_step. rewrite Hsong.
       lib_step. reflexivity. }
  lib_step. eexists. split; [reflexivity|]. lib_simpl.
  split; [apply lookup_delete_eq|]. split; [done|].
  intros Hexist. specialize (Hexist fan liked songId Hfan Hin). revert Hexist.
  lib_simpl. rewrite lookup_delete_eq. by intros [x Hx].
Qed.


(** * The further properties at work on the examples *)

Lemma friendSets_Forall (us : gmap string UserDoc) :
  map_Forall (fun _ doc => NoDup (friends doc)) us -> friendSets us.
Proof. intros H u doc Hlook. by apply (H u doc). Qed.

Lemma symmetricFriends_friendless (us : gmap string UserDoc) :
  map_Forall (fun _ doc => friends doc = []) us -> symmetricFriends us.
Proof.
  intros H a b da db Ha Hb Hin. rewrite (H a da Ha) in Hin. by apply elem_of_nil in Hin.
Qed.

Lemma playback_notifies_connected_friends_witness :
  exists w' new,
    onUpdateCurrentlyPlaying socketAlice (Some {| pd_songId := Some "song1" |})
      (exampleWorld noFault) = (Returned tt, w') /\
    users w' = alter (setCurrentlyPlaying (Some "song1") 100) "alice"
                 (users (exampleWorld noFault)) /\
    emitted w' = new /\
    (forall f s, f ∈ ["bob"; "carol"] -> liveHandle {[ "bob" := "sB" ]} f = Some s ->
       exists t, deliveredTo s new = [FriendCurrentlyPlaying "alice" (Some "song1") t] /\
                 100 <= t) /\
    (forall s ev, (s, ev) ∈ new ->
       exists f, f ∈ ["bob"; "carol"] /\ liveHandle {[ "bob" := "sB" ]} f = Some s).
Proof.
  apply (playback_notifies_connected_friends (exampleWorld noFault) socketAlice
           {| pd_songId := Some "song1" |} (mkUser "alice" ["bob"; "carol"])).
  - intros i j Hij. simpl. lia.
  - reflexivity.
  - reflexivity.
  - reflexivity.
  - apply (bool_decide_unpack _). vm_compute. exact I.
  - apply handlesInjective_bob.
Defined.

Lemma session_presence_witness :
  exists w1 w2 doc1 doc2,
    onConnection socketAlice (exampleWorld noFault) = (Returned tt, w1) /\
    onDisconnect socketAlice w1 = (Returned tt, w2) /\
    users w1 !! "alice" = Some doc1 /\
    isOnline doc1 = true /\ lastSeen doc1 = 100 /\
    users w2 !! "alice" = Some doc2 /\
    isOnline doc2 = false /\ lastSeen doc1 <= lastSeen doc2 /\
    friends doc2 = ["bob"; "carol"] /\
    connectedUsers w2 !! "alice" = None.
Proof.
  apply (session_presence (exampleWorld noFault) socketAlice
           (mkUser "alice" ["bob"; "carol"])).
  - intros i j Hij. simpl. lia.
  - reflexivity.
  - reflexivity.
  - reflexivity.
  - reflexivity.
  - reflexivity.
Defined.

Lemma registry_entry_of_others_kept_witness :
  connectedUsers
    (run [EvConnection socketAlice; EvTyping socketAlice (Some {| td_receiverId := None |});
          EvDisconnect socketAlice] (exampleWorld noFault)) !! "bob" =
  connectedUsers (exampleWorld noFault) !! "bob".
Proof.
  apply (registry_entry_of_others_kept
           [EvConnection socketAlice; EvTyping socketAlice (Some {| td_receiverId := None |});
            EvDisconnect socketAlice] (exampleWorld noFault) "bob").
  repeat constructor; simpl; discriminate.
Defined.

Lemma failed_connection_leaves_socket_deaf_witness :
  let w' := snd (onConnection socketAlice (exampleWorld firstCallFails)) in
  run [EvPrivateMessage socketAlice (Some {| md_receiverId := Some "bob";
                                             md_content := Some "hi" |});
       EvDisconnect socketAlice] w' = w' /\
  connectedUsers
    (run [EvPrivateMessage socketAlice (Some {| md_receiverId := Some "bob";
                                                md_content := Some "hi" |});
          EvDisconnect socketAlice] w') !! "alice" = Some "sA".
Proof.
  apply (failed_connection_leaves_socket_deaf (exampleWorld firstCallFails) socketAlice
           [EvPrivateMessage socketAlice (Some {| md_receiverId := Some "bob";
                                                  md_content := Some "hi" |});
            EvDisconnect socketAlice]).
  - reflexivity.
  - intros name Hin. by apply elem_of_nil in Hin.
  - repeat constructor.
Defined.

Lemma populate_failure_after_store_witness :
  exists w',
    onPrivateMessage socketAlice
      (Some {| md_receiverId := Some "bob"; md_content := Some "hi" |})
      (exampleWorld secondCallFails) = (Returned tt, w') /\
    emitted w' = [("sA", MessageError "Failed to send message")] /\
    messages w' =
      [{| sender := SenderId "alice"; receiver := Some "bob"; content := Some "hi";
          createdAt := 100 |}] /\
    logged w' = ["Error sending private message:"].
Proof.
  apply (populate_failure_after_store (exampleWorld secondCallFails) socketAlice
           {| md_receiverId := Some "bob"; md_content := Some "hi" |}); reflexivity.
Defined.






Lemma accept_keeps_friend_lists_sets_witness :
  friendSets (users (snd (acceptRequest "bob" "r1" (exampleWorld thirdCallFails)))).
Proof.
  apply (accept_keeps_friend_lists_sets (exampleWorld thirdCallFails) "bob" "r1").
  apply friendSets_Forall. apply (bool_decide_unpack _). vm_compute. exact I.
Defined.

Lemma accept_keeps_friendship_undirected_witness :
  exists w',
    acceptRequest "bob" "r1" strangersWorld =
      (Returned {| status := 200; body := "Friend request accepted" |}, w') /\
    symmetricFriends (users w').
Proof.
  apply (accept_keeps_friendship_undirected strangersWorld "r1"
           {| fr_sender := "carol"; fr_receiver := "bob"; fr_status := Pending |}).
  - reflexivity.
  - by eexists.
  - by eexists.
  - apply symmetricFriends_friendless. apply (bool_decide_unpack _). vm_compute. exact I.
  - intros n Hn. reflexivity.
Defined.






Lemma owner_deletes_song_witness :
  exists s',
    SongRoutes.deleteSong "bob" "s2" (exampleLibrary noFault) =
      (Returned {| status := 200; body := "Song deleted successfully" |}, s') /\
    SongRoutes.songs s' = delete "s2" (SongRoutes.songs (exampleLibrary noFault)) /\
    (forall u, SongRoutes.likedSongs s' !! u =
               SongRoutes.pull "s2" <$> SongRoutes.likedSongs (exampleLibrary noFault) !! u) /\
    (SongRoutes.likedExist (exampleLibrary noFault) -> SongRoutes.likedExist s').
Proof.
  apply (owner_deletes_song (exampleLibrary noFault) "bob" "s2" (mkSong "two" "bob")).
  - discriminate.
  - reflexivity.
  - reflexivity.
  - intros n Hn. reflexivity.
Defined.


Lemma delete_can_leave_dangling_likes_witness :
  exists s',
    SongRoutes.deleteSong "bob" "s2" (exampleLibrary thirdCallFails) =
      (Returned {| status := 500; body := "Internal server error" |}, s') /\
    SongRoutes.songs s' !! "s2" = None /\
    SongRoutes.likedSongs s' = SongRoutes.likedSongs (exampleLibrary thirdCallFails) /\
    ~ SongRoutes.likedExist s'.
Proof.
  apply (delete_can_leave_dangling_likes (exampleLibrary thirdCallFails) "bob" "s2" "alice"
           (mkSong "two" "bob") ["s2"]); try reflexivity.
  - discriminate.
  - by left.
Defined.


Lemma respelled_like_is_pushed_twice_witness :
  exists s1 s2,
    SongRoutes.like exampleCast "bob" (Some "S1") (exampleLibrary noFault) =
      (Returned {| status := 200; body := "Song liked successfully" |}, s1) /\
    SongRoutes.likedSongs s1 !! "bob" = Some (["s1"; "s2"] ++ ["s1"]) /\
    ~ NoDup (["s1"; "s2"] ++ ["s1"]) /\
    SongRoutes.isLiked "bob" "S1" s1 = (Returned (Json false), s2).
Proof.
  apply (respelled_like_is_pushed_twice exampleCast (exampleLibrary noFault) "bob" "S1" "s1"
           (mkSong "one" "alice") ["s1"; "s2"]).
  - discriminate.
  - reflexivity.
  - reflexivity.
  - reflexivity.
  - apply (bool_decide_unpack _). vm_compute. exact I.
  - apply (bool_decide_unpack _). vm_compute. exact I.
  - reflexivity.
Defined.

Lemma like_unlike_round_trip_witness :
  exists s1 s2 s3 s4,
    SongRoutes.like exampleCast "carol" (Some "s1") (exampleLibrary noFault) =
      (Returned {| status := 200; body := "Song liked successfully" |}, s1) /\
    SongRoutes.isLiked "carol" "s1" s1 = (Returned (Json true), s2) /\
    SongRoutes.unlike exampleCast "carol" (Some "s1") s2 =
      (Returned {| status := 200; body := "Song unliked successfully" |}, s3) /\
    SongRoutes.isLiked "carol" "s1" s3 = (Returned (Json false), s4) /\
    SongRoutes.likedSongs s4 !! "carol" = Some (SongRoutes.pull "s1" []).
Proof.
  apply (like_unlike_round_trip exampleCast (exampleLibrary noFault) "carol" "s1"
           (mkSong "one" "alice") []).
  - discriminate.
  - reflexivity.
  - reflexivity.
  - reflexivity.
  - reflexivity.
Defined.
